(** * Credential lifecycle and resilient transport of the UPS carrier client

    A shallow embedding of
      - [domain/models/error.ts]   (the error taxonomy),
      - [utils/http-client.ts]     (HttpClient: retry loop, error interceptor),
      - [carriers/ups/ups-auth.ts] (UPSAuthProvider: token cache, single flight),
    followed by the properties the specification states about them.

    Conventions.  JavaScript values are the inductive [JsVal]; numbers are
    integer valued ([JNum]) or [JNaN], which is all the modelled code
    produces (HTTP statuses, seconds, milliseconds, retry counters).
    Exceptions are values: a function that can throw returns [Settled].
    The clock [Date.now()] is an explicit argument in milliseconds. *)

From Stdlib Require Import ZArith List String Ascii Bool Lia DecimalString.
Import ListNotations.
Open Scope string_scope.
Open Scope Z_scope.

(* ================================================================== *)
(** ** JavaScript values *)
(* ================================================================== *)

Module Js.

Set Warnings "-register-all".

(** The seven classes of [domain/models/error.ts]. *)
Inductive ErrorClass : Type :=
| CarrierAuthError
| CarrierNetworkError
| CarrierValidationError
| CarrierRateLimitError
| CarrierResponseError
| CarrierBusinessError
| CarrierConfigError.

(** [JError name message props] is an instance of [Error] that is not a
    [CarrierError] (an [AxiosError], a [TypeError], ...); [props] are its
    other properties ([code], [response], [isAxiosError], ...).
    [JCarrierError cls message code carrier originalError extra] is an
    instance of a [CarrierError] subclass; [extra] is the subclass's own
    field ([statusCode], [retryAfter], [response], [validationErrors],
    [missingFields]; unused by Auth and Business). *)
Inductive JsVal : Type :=
| JUndefined
| JNull
| JBool (b : bool)
| JNum (n : Z)
| JNaN
| JStr (s : string)
| JArr (items : list JsVal)
| JObj (props : list (string * JsVal))
| JError (name : string) (message : string) (props : list (string * JsVal))
| JCarrierError (cls : ErrorClass) (message : string) (code : JsVal)
                (carrier : JsVal) (originalError : JsVal) (extra : JsVal).

(** ToBoolean. *)
Definition truthy (v : JsVal) : bool :=
  match v with
  | JUndefined | JNull | JNaN => false
  | JBool b => b
  | JNum n => negb (n =? 0)
  | JStr s => negb (String.eqb s "")
  | _ => true
  end.

(** [a || b] *)
Definition or_else (a b : JsVal) : JsVal := if truthy a then a else b.

(** [typeof v === 'object'] ([typeof null] is ['object'] too). *)
Definition typeof_object (v : JsVal) : bool :=
  match v with
  | JNull | JArr _ | JObj _ | JError _ _ _ | JCarrierError _ _ _ _ _ _ => true
  | _ => false
  end.

Fixpoint assoc (k : string) (l : list (string * JsVal)) : option JsVal :=
  match l with
  | [] => None
  | (k', v) :: r => if String.eqb k k' then Some v else assoc k r
  end.

Definition class_name (c : ErrorClass) : string :=
  match c with
  | CarrierAuthError => "CarrierAuthError"
  | CarrierNetworkError => "CarrierNetworkError"
  | CarrierValidationError => "CarrierValidationError"
  | CarrierRateLimitError => "CarrierRateLimitError"
  | CarrierResponseError => "CarrierResponseError"
  | CarrierBusinessError => "CarrierBusinessError"
  | CarrierConfigError => "CarrierConfigError"
  end.

(** The name of the field a subclass declares in its constructor. *)
Definition extra_field (c : ErrorClass) : option string :=
  match c with
  | CarrierNetworkError => Some "statusCode"
  | CarrierValidationError => Some "validationErrors"
  | CarrierRateLimitError => Some "retryAfter"
  | CarrierResponseError => Some "response"
  | CarrierConfigError => Some "missingFields"
  | CarrierAuthError | CarrierBusinessError => None
  end.

(** The own properties of a value, [None] when it has none to look at
    (primitives; arrays are only ever indexed, see [index0]). *)
Definition own_prop (v : JsVal) (k : string) : option JsVal :=
  match v with
  | JObj props => assoc k props
  | JError name message props =>
      if String.eqb k "message" then Some (JStr message)
      else if String.eqb k "name" then Some (JStr name)
      else assoc k props
  | JCarrierError cls message code carrier originalError extra =>
      if String.eqb k "message" then Some (JStr message)
      else if String.eqb k "name" then Some (JStr (class_name cls))
      else if String.eqb k "code" then Some code
      else if String.eqb k "carrier" then Some carrier
      else if String.eqb k "originalError" then Some originalError
      else match extra_field cls with
           | Some f => if String.eqb k f then Some extra else None
           | None => None
           end
  | _ => None
  end.

(** [k in v], used by the code only behind [typeof v === 'object'] and a
    truthiness test. *)
Definition has_prop (k : string) (v : JsVal) : bool :=
  match own_prop v k with Some _ => true | None => false end.

(** [v.k]: [None] is the [TypeError] of reading a property of
    [undefined] or [null]. *)
Definition get (v : JsVal) (k : string) : option JsVal :=
  match v with
  | JUndefined | JNull => None
  | _ => Some (match own_prop v k with Some x => x | None => JUndefined end)
  end.

(** [v?.k] *)
Definition getq (v : JsVal) (k : string) : JsVal :=
  match get v k with Some x => x | None => JUndefined end.

(** [v?.[0]] *)
Definition index0 (v : JsVal) : JsVal :=
  match v with
  | JArr (x :: _) => x
  | JStr (String c _) => JStr (String c "")
  | JObj props => match assoc "0" props with Some x => x | None => JUndefined end
  | _ => JUndefined
  end.

(** [a === b] where [b] is a number literal. *)
Definition is_num (v : JsVal) (n : Z) : bool :=
  match v with JNum m => m =? n | _ => false end.

(** [a === b] where [b] is a string literal. *)
Definition is_str (v : JsVal) (s : string) : bool :=
  match v with JStr t => String.eqb t s | _ => false end.

(** [v >= n] and [v < n] for a number literal [n]: the code applies them
    to HTTP statuses, which are numbers, after a truthiness test; for
    any other value the comparison is taken to be false. *)
Definition ge_num (v : JsVal) (n : Z) : bool :=
  match v with JNum m => n <=? m | _ => false end.

Definition lt_num (v : JsVal) (n : Z) : bool :=
  match v with JNum m => m <? n | _ => false end.

Definition string_of_Z (n : Z) : string := NilZero.string_of_int (Z.to_int n).

Fixpoint join (sep : string) (l : list string) : string :=
  match l with
  | [] => ""
  | [x] => x
  | x :: r => x ++ sep ++ join sep r
  end.

(** [String(v)], the conversion of template literals and of
    [super(message)], for a value that is [printable] (below).  The
    only objects of this model the conversion throws for in the code are
    those with an own [toString] property (it cannot be callable here):
    [to_string] says nothing true about them. *)
Fixpoint to_string (v : JsVal) : string :=
  match v with
  | JUndefined => "undefined"
  | JNull => "null"
  | JBool true => "true"
  | JBool false => "false"
  | JNum n => string_of_Z n
  | JNaN => "NaN"
  | JStr s => s
  | JArr items =>
      join "," (map (fun x => match x with
                              | JUndefined | JNull => ""
                              | _ => to_string x
                              end) items)
  | JObj _ => "[object Object]"
  | JError name message _ =>
      if String.eqb name "" then message
      else if String.eqb message "" then name
      else name ++ ": " ++ message
  | JCarrierError cls message _ _ _ _ =>
      if String.eqb message "" then class_name cls
      else class_name cls ++ ": " ++ message
  end.

Definition has_key (k : string) (props : list (string * JsVal)) : bool :=
  match assoc k props with Some _ => true | None => false end.

(** No object inside [v] has an own [toString] property: converting [v]
    or any of its parts to a string or a number does not throw. *)
Fixpoint printable (v : JsVal) : bool :=
  match v with
  | JArr items => forallb printable items
  | JObj props =>
      negb (has_key "toString" props)
      && forallb (fun entry => match entry with (_, x) => printable x end) props
  | JError _ _ props =>
      negb (has_key "toString" props)
      && forallb (fun entry => match entry with (_, x) => printable x end) props
  | JCarrierError _ _ code carrier originalError extra =>
      printable code && printable carrier && printable originalError
      && printable extra
  | _ => true
  end.

(** *** [parseInt(s, 10)]

    Leading white space (the ASCII kinds), a sign, then the longest run
    of decimal digits; [NaN] when there is none. *)

Definition is_space (c : ascii) : bool :=
  let n := nat_of_ascii c in
  ((n =? 32) || (n =? 9) || (n =? 10) || (n =? 11) || (n =? 12) || (n =? 13))%nat.

Fixpoint skip_spaces (s : string) : string :=
  match s with
  | String c r => if is_space c then skip_spaces r else s
  | EmptyString => s
  end.

Definition digit_of (c : ascii) : option Z :=
  let n := nat_of_ascii c in
  if ((48 <=? n) && (n <=? 57))%nat then Some (Z.of_nat (n - 48)) else None.

(** The longest prefix of decimal digits, read most significant first. *)
Fixpoint digits (s : string) (acc : option Z) : option Z :=
  match s with
  | String c r =>
      match digit_of c with
      | Some d => digits r (Some (10 * match acc with Some a => a | None => 0 end + d))
      | None => acc
      end
  | EmptyString => acc
  end.

Definition parseInt10 (v : JsVal) : JsVal :=
  let s := skip_spaces (to_string v) in
  let '(neg, body) :=
    match s with
    | String "-" r => (true, r)
    | String "+" r => (false, r)
    | _ => (false, s)
    end in
  match digits body None with
  | Some n => JNum (if neg then - n else n)
  | None => JNaN
  end.

End Js.
Import Js.

(** How an asynchronous operation (or a call that may throw) ends. *)
Inductive Settled (A : Type) : Type :=
| Fulfilled (v : A)
| Rejected (e : JsVal).
Arguments Fulfilled {A} v.
Arguments Rejected {A} e.


(* ================================================================== *)
(** ** The error taxonomy ([domain/models/error.ts]) *)
(* ================================================================== *)

Module Errors.

(** [super(message)]: [Error] stores [String(message)], nothing when the
    argument is [undefined] (the prototype's empty message then shows). *)
Definition message_of (message : JsVal) : string :=
  match message with JUndefined => "" | _ => to_string message end.

(** Each constructor below takes its arguments in the order the class
    declares them; an argument left out by the caller is [JUndefined]. *)

Definition new_CarrierAuthError (message carrier originalError : JsVal) : JsVal :=
  JCarrierError CarrierAuthError (message_of message) (JStr "AUTH_ERROR")
                carrier originalError JUndefined.

Definition new_CarrierNetworkError
           (message statusCode carrier originalError : JsVal) : JsVal :=
  JCarrierError CarrierNetworkError (message_of message) (JStr "NETWORK_ERROR")
                carrier originalError statusCode.

Definition new_CarrierValidationError
           (message validationErrors carrier : JsVal) : JsVal :=
  JCarrierError CarrierValidationError (message_of message)
                (JStr "VALIDATION_ERROR") carrier JUndefined validationErrors.

Definition new_CarrierRateLimitError
           (message retryAfter carrier originalError : JsVal) : JsVal :=
  JCarrierError CarrierRateLimitError (message_of message)
                (JStr "RATE_LIMIT_ERROR") carrier originalError retryAfter.

Definition new_CarrierResponseError
           (message response carrier originalError : JsVal) : JsVal :=
  JCarrierError CarrierResponseError (message_of message)
                (JStr "RESPONSE_ERROR") carrier originalError response.

Definition new_CarrierBusinessError
           (message code carrier originalError : JsVal) : JsVal :=
  JCarrierError CarrierBusinessError (message_of message) code
                carrier originalError JUndefined.

Definition new_CarrierConfigError (message missingFields : JsVal) : JsVal :=
  JCarrierError CarrierConfigError (message_of message) (JStr "CONFIG_ERROR")
                JUndefined JUndefined missingFields.

(** [error instanceof C], as the class of the value when it has one. *)
Definition kind (v : JsVal) : option ErrorClass :=
  match v with
  | JCarrierError cls _ _ _ _ _ => Some cls
  | _ => None
  end.

(** [isCarrierError] *)
Definition isCarrierError (v : JsVal) : bool :=
  match kind v with Some _ => true | None => false end.

(** Field readers: [e.statusCode], [e.retryAfter], [e.response], [e.code],
    [e.carrier], [e.originalError], [e.message]. *)
Definition statusCode (e : JsVal) : JsVal := getq e "statusCode".
Definition retryAfter (e : JsVal) : JsVal := getq e "retryAfter".
Definition response (e : JsVal) : JsVal := getq e "response".
Definition code (e : JsVal) : JsVal := getq e "code".
Definition carrier (e : JsVal) : JsVal := getq e "carrier".
Definition originalError (e : JsVal) : JsVal := getq e "originalError".
Definition message (e : JsVal) : JsVal := getq e "message".

(** [toJSON()]: [CarrierError.toJSON] lists [name], [message], [code] and
    [carrier] (the line that would add [originalError] is commented
    out); a subclass with a field of its own spreads that object and
    adds the field.  [None] for a value that is not a [CarrierError]. *)
Definition toJSON (e : JsVal) : option JsVal :=
  match e with
  | JCarrierError cls message code carrier _ extra =>
      let base := [("name", JStr (class_name cls)); ("message", JStr message);
                   ("code", code); ("carrier", carrier)] in
      Some (JObj (match extra_field cls with
                  | Some field => base ++ [(field, extra)]
                  | None => base
                  end))
  | _ => None
  end.

End Errors.
Import Errors.

(* ================================================================== *)
(** ** The axios library, as far as the code relies on it *)
(* ================================================================== *)

Module Axios.

(** [axios.isAxiosError(payload)]: an object whose [isAxiosError]
    property is [true]. *)
Definition isAxiosError (payload : JsVal) : bool :=
  match payload with
  | JNull => false
  | _ => typeof_object payload &&
         match getq payload "isAxiosError" with JBool true => true | _ => false end
  end.

(** The error axios raises for a response whose status is outside 2xx. *)
Definition AxiosError (message : string) (code : JsVal) (response : JsVal) : JsVal :=
  JError "AxiosError" message
         [("code", code); ("response", response); ("isAxiosError", JBool true)].

(** The error axios raises when no response arrived (connection refused,
    timeout, ...): it has no [response] property. *)
Definition AxiosNetworkError (message : string) (code : JsVal) : JsVal :=
  JError "AxiosError" message [("code", code); ("isAxiosError", JBool true)].

(** A response object: [{status, data, headers}]. *)
Definition Response (status : Z) (data : JsVal) (headers : list (string * JsVal)) : JsVal :=
  JObj [("status", JNum status); ("data", data); ("headers", JObj headers)].

(** An instance made by [axios.create]: its defaults and the handlers
    registered with [interceptors.response.use], in registration order. *)
Record AxiosInstance : Type := {
  baseURL : JsVal;
  timeout : Z;
  contentType : string;
  responseInterceptors :
    list ((JsVal -> Settled JsVal) * (JsVal -> Settled JsVal))
}.

(** A request through an instance: the adapter's outcome runs through
    the chain [.then(fulfilled, rejected)] of every response interceptor. *)
Definition through (inst : AxiosInstance) (raw : Settled JsVal) : Settled JsVal :=
  fold_left (fun (acc : Settled JsVal) h =>
               match acc with
               | Fulfilled v => fst h v
               | Rejected e => snd h e
               end)
            (responseInterceptors inst) raw.

End Axios.

(* ================================================================== *)
(** ** HttpClient ([utils/http-client.ts]) *)
(* ================================================================== *)

Module HttpClient.
Import Axios.

(** [HttpClientConfig]: every field is optional ([JUndefined] when left
    out). *)
Record HttpClientConfig : Type := {
  cfg_baseURL : JsVal;
  cfg_timeout : JsVal;
  cfg_maxRetries : JsVal;
  cfg_retryDelay : JsVal
}.

(** [v || d] for a field declared [number | undefined] and a non-zero
    default [d]: [undefined], [0] and [NaN] are falsy. *)
Definition num_or (v : JsVal) (d : Z) : Z :=
  match or_else v (JNum d) with
  | JNum n => n
  | _ => d
  end.

(** [v ?? d] *)
Definition nullish_or (v d : JsVal) : JsVal :=
  match v with JUndefined | JNull => d | _ => v end.

Fixpoint contains (needle hay : string) : bool :=
  String.prefix needle hay ||
  match hay with
  | String _ r => contains needle r
  | EmptyString => false
  end.

(** [m.includes('timeout')]: defined on strings and arrays; on any other
    value there is no such method and the call is a [TypeError]. *)
Definition includes_timeout (m : JsVal) : option bool :=
  match m with
  | JStr s => Some (contains "timeout" s)
  | JArr items => Some (existsb (fun x => is_str x "timeout") items)
  | _ => None
  end.

(** [['ECONNABORTED', 'ETIMEDOUT', 'ENOTFOUND', 'ECONNREFUSED'].includes(code)] *)
Definition is_network_code (code : JsVal) : bool :=
  existsb (is_str code) ["ECONNABORTED"; "ETIMEDOUT"; "ENOTFOUND"; "ECONNREFUSED"].

(** [data.response?.errors?.[0]] behind the guard
    [data && typeof data === 'object' && 'response' in data]; [None] when
    the guard or the entry's truthiness test fails. *)
Definition upsError_of (data : JsVal) : option JsVal :=
  if truthy data && typeof_object data && has_prop "response" data then
    let upsError := index0 (getq (getq data "response") "errors") in
    if truthy upsError then Some upsError else None
  else None.

(** [handleError(error): never].  It always throws; the result is the
    value thrown. *)
Definition handleError (error : JsVal) : JsVal :=
  if isAxiosError error then
    let response := getq error "response" in
    let status := getq response "status" in
    let data := getq response "data" in
    let code := getq error "code" in
    if is_num status 429 then
      let retryAfter := getq (getq response "headers") "retry-after" in
      new_CarrierRateLimitError
        (JStr "Request rate limited") (JStr "UNKNOWN") code
        (if truthy retryAfter then parseInt10 retryAfter else JUndefined)
    else if truthy status && ge_num status 500 then
      new_CarrierNetworkError
        (JStr ("Server error: " ++ to_string (getq error "message")))
        (JStr "UNKNOWN") code status
    else if truthy status && ge_num status 400 && lt_num status 500 then
      match upsError_of data with
      | Some upsError =>
          new_CarrierBusinessError
            (or_else (getq upsError "message") (JStr "Business validation error"))
            (JStr "UPS") (getq upsError "code") data
      | None =>
          new_CarrierResponseError
            (JStr ("Client error: " ++ to_string (getq error "message")))
            (JStr "UNKNOWN") code data
      end
    else if negb (truthy response) then
      new_CarrierNetworkError
        (JStr ("Network error: " ++ to_string (getq error "message")))
        (JStr "UNKNOWN") code JUndefined
    else
      new_CarrierNetworkError (getq error "message") (JStr "UNKNOWN") code status
  else if truthy error && typeof_object error && has_prop "isAxiosError" error
          && truthy (getq error "isAxiosError") then
    let response := getq error "response" in
    let status := getq response "status" in
    let data := getq response "data" in
    let code := getq error "code" in
    let message := getq error "message" in
    if is_num status 429 then
      let retryAfter := getq (getq response "headers") "retry-after" in
      new_CarrierRateLimitError
        (JStr "Request rate limited") (JStr "UNKNOWN") code
        (if truthy retryAfter then parseInt10 retryAfter else JUndefined)
    else if truthy status && ge_num status 500 then
      new_CarrierNetworkError
        (JStr ("Server error: " ++ to_string (or_else message (JStr "Unknown server error"))))
        (JStr "UNKNOWN") code status
    else if truthy status && ge_num status 400 && lt_num status 500 then
      match upsError_of data with
      | Some upsError =>
          new_CarrierBusinessError
            (or_else (getq upsError "message") (JStr "Business validation error"))
            (JStr "UPS") (getq upsError "code") data
      | None =>
          new_CarrierResponseError
            (JStr ("Client error: " ++ to_string (or_else message (JStr "Unknown client error"))))
            (JStr "UNKNOWN") code data
      end
    else
      let timed_out : option bool :=
        if is_str code "ECONNABORTED" then Some true
        else if truthy message then includes_timeout message
        else Some false in
      match timed_out with
      | None => JError "TypeError" "error.message.includes is not a function" []
      | Some true =>
          new_CarrierNetworkError
            (JStr ("Request timeout: " ++ to_string (or_else message (JStr "Connection timeout"))))
            (JStr "UNKNOWN") code JUndefined
      | Some false =>
          if negb (truthy response) then
            new_CarrierNetworkError
              (JStr ("Network error: " ++ to_string (or_else message (JStr "Unknown network error"))))
              (JStr "UNKNOWN") code JUndefined
          else
            new_CarrierNetworkError (or_else message (JStr "Unknown error"))
                                    (JStr "UNKNOWN") code status
      end
  else
    new_CarrierNetworkError (JStr ("Unexpected error: " ++ to_string error))
                            (JStr "UNKNOWN") (JStr "UNKNOWN") JUndefined.

(** The three tests that [shouldRetry] applies, in both of its branches,
    to [error.response?.status] and [error.code]. *)
Definition retryable (error : JsVal) : bool :=
  let status := getq (getq error "response") "status" in
  let code := getq error "code" in
  if truthy status && ge_num status 500 then true
  else if is_num status 429 then true
  else if truthy code && is_network_code code then true
  else false.

(** [shouldRetry(error)] *)
Definition shouldRetry (error : JsVal) : bool :=
  if negb (isAxiosError error) then
    if truthy error && typeof_object error && has_prop "isAxiosError" error
    then retryable error
    else false
  else retryable error.

(** The state of an [HttpClient] after its constructor. *)
Record t : Type := {
  client : AxiosInstance;
  maxRetries : Z;
  retryDelay : Z
}.

(** [constructor(config = {})] *)
Definition new (config : HttpClientConfig) : t :=
  {| maxRetries := num_or (cfg_maxRetries config) 3;
     retryDelay := num_or (cfg_retryDelay config) 1000;
     client :=
       {| baseURL := nullish_or (cfg_baseURL config) (JStr "");
          timeout := num_or (cfg_timeout config) 30000;
          contentType := "application/json";
          responseInterceptors :=
            [((fun response => Fulfilled response),
              (fun error => Rejected (handleError error)))] |} |}.

(** What a call of [requestWithRetry] does, in order. *)
Inductive Event : Type :=
| Attempt (retryCount : Z)
| Delay (ms : Z).

(** [requestWithRetry(requestFn, retryCount)].  [requestFn k] is how the
    request issued by the invocation with retry count [k] settles.  The
    recursion of the source is on [retryCount]; [fuel] bounds it here and
    [requestWithRetry_total] shows the bound used by [run] is enough. *)
Fixpoint requestWithRetry (fuel : nat) (c : t) (requestFn : Z -> Settled JsVal)
         (retryCount : Z) : option (list Event * Settled JsVal) :=
  match fuel with
  | O => None
  | S fuel' =>
      match requestFn retryCount with
      | Fulfilled v => Some ([Attempt retryCount], Fulfilled v)
      | Rejected error =>
          if (retryCount <? maxRetries c) && shouldRetry error then
            let delay := retryDelay c * 2 ^ retryCount in
            match requestWithRetry fuel' c requestFn (retryCount + 1) with
            | Some (events, result) =>
                Some (Attempt retryCount :: Delay delay :: events, result)
            | None => None
            end
          else Some ([Attempt retryCount], Rejected error)
      end
  end.

(** The call [requestWithRetry(requestFn)] made by [get], [post], [put]
    and [delete], with the default [retryCount = 0]. *)
Definition run (c : t) (requestFn : Z -> Settled JsVal)
  : option (list Event * Settled JsVal) :=
  requestWithRetry (S (Z.to_nat (maxRetries c))) c requestFn 0.

(** [get]/[post]/[put]/[delete]: [requestFn] sends the request through
    [this.client]; [adapter k] is what the network answers to the request
    of retry count [k]. *)
Definition request (c : t) (adapter : Z -> Settled JsVal)
  : option (list Event * Settled JsVal) :=
  run c (fun k => through (client c) (adapter k)).

(** The events of a request function that keeps being retried: attempts
    [retryCount .. retryCount + left], with the delay
    [retryDelay * 2^k] after attempt [k]. *)
Fixpoint backoff (c : t) (retryCount : Z) (left : nat) : list Event :=
  match left with
  | O => [Attempt retryCount]
  | S left' =>
      Attempt retryCount :: Delay (retryDelay c * 2 ^ retryCount)
              :: backoff c (retryCount + 1) left'
  end.

(** The number of requests put on the wire. *)
Definition attempts (events : list Event) : nat :=
  List.length (filter (fun e => match e with Attempt _ => true | _ => false end) events).

(** The delays slept between them, in order. *)
Definition delays (events : list Event) : list Z :=
  flat_map (fun e => match e with Delay ms => [ms] | _ => [] end) events.

End HttpClient.

(* ================================================================== *)
(** ** UPSAuthProvider ([carriers/ups/ups-auth.ts]) *)
(* ================================================================== *)

Module UPSAuth.
Import Axios.

Record UPSAuthConfig : Type := {
  clientId : string;
  clientSecret : string;
  tokenUrl : string;
  cfg_timeout : JsVal
}.

(** [AuthToken] ([carriers/base/auth.interface.ts]); the two times are
    seconds, [expiresAt] since the epoch. *)
Record AuthToken : Type := {
  accessToken : JsVal;
  tokenType : JsVal;
  expiresIn : Z;
  expiresAt : Z
}.

(** [UPSTokenResponse] ([ups-types.ts]): the body of a token response.
    [expires_in] is a number as declared; [access_token] is whatever the
    issuer sent, [JUndefined] when the field is missing. *)
Record UPSTokenResponse : Type := {
  access_token : JsVal;
  token_type : JsVal;
  expires_in : Z
}.

Definition body_value (d : UPSTokenResponse) : JsVal :=
  JObj [("access_token", access_token d); ("token_type", token_type d);
        ("expires_in", JNum (expires_in d))].

(** The request [acquireToken] posts.  [basicCredentials] is the string
    whose base64 encoding follows [Basic ] in the Authorization header. *)
Record TokenRequest : Type := {
  url : string;
  body : string;
  basicCredentials : string
}.

(** The fields of the provider.  A promise is named by a number; the
    promise of an acquisition is numbered by the exchange it waits for. *)
Record Provider : Type := {
  config : UPSAuthConfig;
  httpClient : AxiosInstance;
  cachedToken : option AuthToken;
  tokenPromise : option nat
}.

Definition REFRESH_BUFFER_SECONDS : Z := 300.

(** [constructor(config)] *)
Definition new (cfg : UPSAuthConfig) : Provider :=
  {| config := cfg;
     httpClient :=
       {| baseURL := JUndefined;
          timeout := HttpClient.num_or (cfg_timeout cfg) 10000;
          contentType := "application/x-www-form-urlencoded";
          responseInterceptors := [] |};
     cachedToken := None;
     tokenPromise := None |}.

Definition set_cachedToken (p : Provider) (t : option AuthToken) : Provider :=
  {| config := config p; httpClient := httpClient p;
     cachedToken := t; tokenPromise := tokenPromise p |}.

Definition set_tokenPromise (p : Provider) (q : option nat) : Provider :=
  {| config := config p; httpClient := httpClient p;
     cachedToken := cachedToken p; tokenPromise := q |}.

(** [Math.floor(Date.now() / 1000)] *)
Definition seconds (nowMs : Z) : Z := nowMs / 1000.

(** [hasValidToken()] *)
Definition hasValidToken (nowMs : Z) (p : Provider) : bool :=
  match cachedToken p with
  | None => false
  | Some t =>
      let now := seconds nowMs in
      let expiryWithBuffer := expiresAt t - REFRESH_BUFFER_SECONDS in
      now <? expiryWithBuffer
  end.

(** [clearToken()] *)
Definition clearToken (p : Provider) : Provider := set_cachedToken p None.

(** [getTimeUntilExpiry()] *)
Definition getTimeUntilExpiry (nowMs : Z) (p : Provider) : Z :=
  match cachedToken p with
  | None => 0
  | Some t =>
      let now := seconds nowMs in
      let remaining := expiresAt t - now in
      Z.max 0 remaining
  end.

(** *** [acquireToken] *)

(** Up to its [await]: the request that goes on the wire. *)
Definition acquireToken_request (p : Provider) : TokenRequest :=
  {| url := tokenUrl (config p);
     body := "grant_type=client_credentials";
     basicCredentials := clientId (config p) ++ ":" ++ clientSecret (config p) |}.

(** The error the [catch] block throws for the error it caught. *)
Definition acquireToken_catch (error : JsVal) : JsVal :=
  if isAxiosError error then
    let status := getq (getq error "response") "status" in
    let data := getq (getq error "response") "data" in
    if is_num status 401 || is_num status 403 then
      new_CarrierAuthError
        (JStr ("Authentication failed: Invalid credentials (" ++ to_string status ++ ")"))
        (JStr "UPS") data
    else if is_num status 429 then
      new_CarrierAuthError (JStr "Authentication rate limited by UPS") (JStr "UPS") data
    else if negb (truthy (getq error "response")) then
      new_CarrierAuthError
        (JStr ("Failed to acquire token: " ++ to_string (getq error "message")))
        (JStr "UPS") error
    else
      new_CarrierAuthError
        (JStr ("Failed to acquire token: " ++ to_string (getq error "message")))
        (JStr "UPS") error
  else
    let unexpected :=
      new_CarrierAuthError
        (JStr ("Unexpected error during token acquisition: " ++ to_string error))
        (JStr "UPS") error in
    if truthy error && typeof_object error && has_prop "response" error then
      let status := getq (getq error "response") "status" in
      let data := getq (getq error "response") "data" in
      if is_num status 401 || is_num status 403 then
        new_CarrierAuthError
          (JStr ("Authentication failed: Invalid credentials (" ++ to_string status ++ ")"))
          (JStr "UPS") data
      else if is_num status 429 then
        new_CarrierAuthError (JStr "Authentication rate limited by UPS") (JStr "UPS") data
      else unexpected
    else unexpected.

(** What the [try] block does once [httpClient.post] has settled:
    [Fulfilled (Some d)] is a response with body [d], [Fulfilled None] a
    response whose [data] is [undefined] (reading [access_token] off it
    is a [TypeError]), [Rejected e] a rejected request.  The result is
    the new [cachedToken] when the block completes, or what it throws. *)
Definition acquireToken_try (nowMs : Z) (posted : Settled (option UPSTokenResponse))
  : Settled AuthToken :=
  match posted with
  | Rejected e => Rejected e
  | Fulfilled None =>
      Rejected (JError "TypeError"
                  "Cannot read properties of undefined (reading 'access_token')" [])
  | Fulfilled (Some data) =>
      if negb (truthy (access_token data)) then
        Rejected (new_CarrierAuthError
                    (JStr "Invalid token response: missing access_token")
                    (JStr "UPS") (body_value data))
      else
        let now := seconds nowMs in
        Fulfilled {| accessToken := access_token data;
                     tokenType := token_type data;
                     expiresIn := expires_in data;
                     expiresAt := now + expires_in data |}
  end.

(** [acquireToken] from its [await] on: the provider afterwards and how
    the promise it returned settles. *)
Definition acquireToken_resume (nowMs : Z) (posted : Settled (option UPSTokenResponse))
           (p : Provider) : Provider * Settled JsVal :=
  match acquireToken_try nowMs posted with
  | Fulfilled t => (set_cachedToken p (Some t), Fulfilled (accessToken t))
  | Rejected error => (set_cachedToken p None, Rejected (acquireToken_catch error))
  end.

End UPSAuth.

(* ================================================================== *)
(** ** The provider under cooperative scheduling *)
(* ================================================================== *)

(** [getToken] and [acquireToken] are [async]: a call runs until its
    first [await] and the rest runs when the awaited promise settles.
    A [World] holds the provider together with what is suspended.  Two
    steps change it: a call ([getToken], [refreshToken], [clearToken]),
    which runs up to the first suspension, and [settle], the arrival of
    the answer of a token exchange followed, without any other code in
    between, by the rest of [acquireToken] and the reactions of its
    promise in the order they were attached.  The reactions are jobs of
    their own in the code, and other code can run between them: module
    [Microtasks] below has them one by one, and [settle] is its
    settlement followed by the run of every job
    ([MicrotaskFacts.settle_is_uninterrupted]). *)

Module Scheduler.
Import UPSAuth.

Definition Caller : Type := nat.

(** What waits on a promise: the call that started the acquisition,
    suspended at [await this.tokenPromise] inside [try]/[finally], or a
    call that did [return this.tokenPromise]. *)
Inductive Reaction : Type :=
| Resume (c : Caller)
| Adopt (c : Caller).

Record World : Type := {
  self : Provider;
  wire : list TokenRequest;
  inflight : list nat;
  reactions : list (nat * Reaction);
  outcomes : list (Caller * Settled JsVal)
}.

(** [wire]: the token exchanges issued so far, oldest first.
    [inflight]: the acquisition promises still pending.
    [outcomes]: how the calls made so far have ended, in that order. *)

Definition start (cfg : UPSAuthConfig) : World :=
  {| self := UPSAuth.new cfg; wire := []; inflight := []; reactions := [];
     outcomes := [] |}.

Definition deliver (c : Caller) (r : Settled JsVal) (w : World) : World :=
  {| self := self w; wire := wire w; inflight := inflight w;
     reactions := reactions w; outcomes := outcomes w ++ [(c, r)] |}.

Definition with_self (w : World) (p : Provider) : World :=
  {| self := p; wire := wire w; inflight := inflight w;
     reactions := reactions w; outcomes := outcomes w |}.

(** [getToken()], called by [c] when the clock shows [nowMs]. *)
Definition getToken (nowMs : Z) (c : Caller) (w : World) : World :=
  if hasValidToken nowMs (self w) then
    match cachedToken (self w) with
    | Some t => deliver c (Fulfilled (accessToken t)) w
    | None =>
        deliver c (Rejected (JError "TypeError"
          "Cannot read properties of null (reading 'accessToken')" [])) w
    end
  else
    match tokenPromise (self w) with
    | Some q =>
        {| self := self w; wire := wire w; inflight := inflight w;
           reactions := reactions w ++ [(q, Adopt c)];
           outcomes := outcomes w |}
    | None =>
        let q := List.length (wire w) in
        {| self := set_tokenPromise (self w) (Some q);
           wire := wire w ++ [acquireToken_request (self w)];
           inflight := inflight w ++ [q];
           reactions := reactions w ++ [(q, Resume c)];
           outcomes := outcomes w |}
    end.

(** [clearToken()] *)
Definition clearToken (w : World) : World :=
  with_self w (UPSAuth.clearToken (self w)).

(** [refreshToken()] *)
Definition refreshToken (nowMs : Z) (c : Caller) (w : World) : World :=
  getToken nowMs c (clearToken w).

(** One reaction of a settled acquisition promise.  [Resume] leaves the
    [try] through [finally { this.tokenPromise = null }]. *)
Definition react (result : Settled JsVal) (r : Reaction) (w : World) : World :=
  match r with
  | Resume c => deliver c result (with_self w (set_tokenPromise (self w) None))
  | Adopt c => deliver c result w
  end.

Definition waits_on (q : nat) (x : nat * Reaction) : bool := Nat.eqb (fst x) q.

(** The exchange of promise [q] is answered with [posted] at [nowMs],
    and every reaction of the promise runs before anything else does. *)
Definition settle (nowMs : Z) (q : nat) (posted : Settled (option UPSTokenResponse))
           (w : World) : World :=
  if existsb (Nat.eqb q) (inflight w) then
    let '(p, result) := acquireToken_resume nowMs posted (self w) in
    fold_left (fun acc x => react result (snd x) acc)
              (filter (waits_on q) (reactions w))
              {| self := p; wire := wire w;
                 inflight := filter (fun i => negb (Nat.eqb i q)) (inflight w);
                 reactions := filter (fun x => negb (waits_on q x)) (reactions w);
                 outcomes := outcomes w |}
  else w.

(** [n] calls of [getToken] in a row, none of them resumed in between:
    each is a caller with the clock reading at its call. *)
Definition getTokens (calls : list (Z * Caller)) (w : World) : World :=
  fold_left (fun acc call => getToken (fst call) (snd call) acc) calls w.

(** The number of token exchanges issued. *)
Definition exchanges (w : World) : nat := List.length (wire w).

(** What a program can do to a provider, and a run of such steps. *)
Inductive Op : Type :=
| CallGetToken (nowMs : Z) (c : Caller)
| CallRefreshToken (nowMs : Z) (c : Caller)
| CallClearToken
| Settle (nowMs : Z) (q : nat) (posted : Settled (option UPSTokenResponse)).

Definition step (w : World) (op : Op) : World :=
  match op with
  | CallGetToken nowMs c => getToken nowMs c w
  | CallRefreshToken nowMs c => refreshToken nowMs c w
  | CallClearToken => clearToken w
  | Settle nowMs q posted => settle nowMs q posted w
  end.

Definition steps (ops : list Op) (w : World) : World := fold_left step ops w.

(** The shape of a world no acquisition is pending in, and of one where
    the acquisition of promise [q] is: its promise is the one in the
    slot, the call that started it waits first, the joiners after it. *)
Definition at_rest (w : World) : Prop :=
  tokenPromise (self w) = None /\ inflight w = [] /\ reactions w = [].

Definition acquiring (q : nat) (w : World) : Prop :=
  tokenPromise (self w) = Some q /\ inflight w = [q] /\
  exists c joiners,
    reactions w = (q, Resume c) :: map (fun j => (q, Adopt j)) joiners.

Definition single_flight (w : World) : Prop :=
  at_rest w \/ exists q, acquiring q w.

End Scheduler.

(* ================================================================== *)
(** ** The provider, one job at a time *)
(* ================================================================== *)

(** When the promise of an acquisition settles, each of its reactions
    becomes a job in a queue, and the jobs run one after the other with
    whatever other code is queued between them.  The first of them is
    the call that started the acquisition, resuming after
    [await this.tokenPromise]: until it has run its [finally], the slot
    still holds the settled promise, and a [getToken] that finds no
    valid credential returns that promise.  [settled] keeps how each
    promise settled; [jobs] is the queue, with the result each job
    hands on.

    A call that did [return this.tokenPromise] attaches its reaction
    through a job of its own.  That delays the reaction and does not
    change the order: the call that started the acquisition attached
    its reaction first, at its [await], and the others follow in the
    order of their calls, whether the promise had settled or not.
    [outcomes] lists the calls in the order their own promises settle:
    at the call for a cached token, in its job otherwise. *)

Module Microtasks.
Import UPSAuth.

Record World : Type := {
  base : Scheduler.World;
  settled : list (nat * Settled JsVal);
  jobs : list (Scheduler.Reaction * Settled JsVal)
}.

Definition start (cfg : UPSAuthConfig) : World :=
  {| base := Scheduler.start cfg; settled := []; jobs := [] |}.

Definition lift (f : Scheduler.World -> Scheduler.World) (w : World) : World :=
  {| base := f (base w); settled := settled w; jobs := jobs w |}.

Fixpoint result_of (q : nat) (l : list (nat * Settled JsVal))
  : option (Settled JsVal) :=
  match l with
  | [] => None
  | (q', r) :: rest => if Nat.eqb q q' then Some r else result_of q rest
  end.

(** [getToken()].  The one case [Scheduler.getToken] does not have:
    [return this.tokenPromise] when that promise has settled already;
    the call then ends with its result, in a job of its own. *)
Definition getToken (nowMs : Z) (c : Scheduler.Caller) (w : World) : World :=
  if hasValidToken nowMs (Scheduler.self (base w)) then
    lift (Scheduler.getToken nowMs c) w
  else
    match tokenPromise (Scheduler.self (base w)) with
    | Some q =>
        match result_of q (settled w) with
        | Some result =>
            {| base := base w; settled := settled w;
               jobs := jobs w ++ [(Scheduler.Adopt c, result)] |}
        | None => lift (Scheduler.getToken nowMs c) w
        end
    | None => lift (Scheduler.getToken nowMs c) w
    end.

(** [clearToken()] *)
Definition clearToken (w : World) : World := lift Scheduler.clearToken w.

(** [refreshToken()] *)
Definition refreshToken (nowMs : Z) (c : Scheduler.Caller) (w : World) : World :=
  getToken nowMs c (clearToken w).

(** The exchange of the pending promise [q] is answered: the rest of
    [acquireToken] runs, the promise settles, and its reactions are
    queued in the order they were attached. *)
Definition resolve (nowMs : Z) (q : nat) (posted : Settled (option UPSTokenResponse))
           (w : World) : World :=
  if existsb (Nat.eqb q) (Scheduler.inflight (base w)) then
    let '(p, result) := acquireToken_resume nowMs posted (Scheduler.self (base w)) in
    {| base :=
         {| Scheduler.self := p;
            Scheduler.wire := Scheduler.wire (base w);
            Scheduler.inflight :=
              filter (fun i => negb (Nat.eqb i q)) (Scheduler.inflight (base w));
            Scheduler.reactions :=
              filter (fun x => negb (Scheduler.waits_on q x))
                     (Scheduler.reactions (base w));
            Scheduler.outcomes := Scheduler.outcomes (base w) |};
       settled := (q, result) :: settled w;
       jobs := jobs w
               ++ map (fun x => (snd x, result))
                      (filter (Scheduler.waits_on q) (Scheduler.reactions (base w))) |}
  else w.

(** The first job of the queue runs. *)
Definition tick (w : World) : World :=
  match jobs w with
  | [] => w
  | (reaction, result) :: rest =>
      {| base := Scheduler.react result reaction (base w);
         settled := settled w; jobs := rest |}
  end.

(** Every queued job runs, first to last, and nothing else. *)
Definition run_jobs (queue : list (Scheduler.Reaction * Settled JsVal))
           (b : Scheduler.World) : Scheduler.World :=
  fold_left (fun acc job => Scheduler.react (snd job) (fst job) acc) queue b.

Definition drain (w : World) : World :=
  {| base := run_jobs (jobs w) (base w); settled := settled w; jobs := [] |}.

Definition getTokens (calls : list (Z * Scheduler.Caller)) (w : World) : World :=
  fold_left (fun acc call => getToken (fst call) (snd call) acc) calls w.

Definition exchanges (w : World) : nat := Scheduler.exchanges (base w).
Definition outcomes (w : World) : list (Scheduler.Caller * Settled JsVal) :=
  Scheduler.outcomes (base w).
Definition self (w : World) : Provider := Scheduler.self (base w).

Inductive Op : Type :=
| CallGetToken (nowMs : Z) (c : Scheduler.Caller)
| CallRefreshToken (nowMs : Z) (c : Scheduler.Caller)
| CallClearToken
| Resolve (nowMs : Z) (q : nat) (posted : Settled (option UPSTokenResponse))
| Tick.

Definition step (w : World) (op : Op) : World :=
  match op with
  | CallGetToken nowMs c => getToken nowMs c w
  | CallRefreshToken nowMs c => refreshToken nowMs c w
  | CallClearToken => clearToken w
  | Resolve nowMs q posted => resolve nowMs q posted w
  | Tick => tick w
  end.

Definition steps (ops : list Op) (w : World) : World := fold_left step ops w.

(** The callers of the calls among the steps of a run, the callers
    still waiting in a world and the callers already answered. *)
Definition callers (ops : list Op) : list Scheduler.Caller :=
  flat_map (fun op => match op with
                      | CallGetToken _ c | CallRefreshToken _ c => [c]
                      | _ => []
                      end) ops.

Definition waiter (r : Scheduler.Reaction) : Scheduler.Caller :=
  match r with Scheduler.Resume c | Scheduler.Adopt c => c end.

Definition waiting (w : World) : list Scheduler.Caller :=
  (map (fun job => waiter (fst job)) (jobs w)
   ++ map (fun x => waiter (snd x)) (Scheduler.reactions (base w)))%list.

Definition answered (w : World) : list Scheduler.Caller := map fst (outcomes w).

Definition is_adopt (job : Scheduler.Reaction * Settled JsVal) : bool :=
  match fst job with Scheduler.Adopt _ => true | Scheduler.Resume _ => false end.

(** The three shapes of a world.  In all of them every settled promise
    is one of the exchanges issued.
    - [idle]: nothing pending, the slot empty, no [finally] queued.
    - [acquiring q]: the acquisition of [q] pending and in the slot, the
      call that started it waiting first, no [finally] queued.
    - [finishing q]: [q] has settled and is still in the slot, nothing
      is pending, and the job of the call that started [q] is queued,
      the only one of its kind. *)
Definition known (w : World) : Prop :=
  Forall (fun x => (fst x < exchanges w)%nat) (settled w).

Definition idle (w : World) : Prop :=
  tokenPromise (self w) = None
  /\ Scheduler.inflight (base w) = []
  /\ Scheduler.reactions (base w) = []
  /\ forallb is_adopt (jobs w) = true.

Definition acquiring (q : nat) (w : World) : Prop :=
  tokenPromise (self w) = Some q
  /\ Scheduler.inflight (base w) = [q]
  /\ (exists c joiners,
        Scheduler.reactions (base w)
        = (q, Scheduler.Resume c) :: map (fun j => (q, Scheduler.Adopt j)) joiners)
  /\ result_of q (settled w) = None
  /\ (q < exchanges w)%nat
  /\ forallb is_adopt (jobs w) = true.

Definition finishing (q : nat) (w : World) : Prop :=
  tokenPromise (self w) = Some q
  /\ Scheduler.inflight (base w) = []
  /\ Scheduler.reactions (base w) = []
  /\ exists result c before after,
       result_of q (settled w) = Some result
       /\ jobs w = (before ++ (Scheduler.Resume c, result) :: after)%list
       /\ forallb is_adopt before = true
       /\ forallb is_adopt after = true.

Definition single_flight (w : World) : Prop :=
  known w /\ (idle w \/ (exists q, acquiring q w) \/ exists q, finishing q w).

End Microtasks.

(* ================================================================== *)
(** ** Configuration ([config/index.ts]) *)
(* ================================================================== *)

Module Config.

(** [process.env]: a variable is a string or is not set. *)
Definition Env : Type := string -> option string.

Definition env_val (env : Env) (name : string) : JsVal :=
  match env name with Some s => JStr s | None => JUndefined end.

Definition is_upper (c : ascii) : bool :=
  let n := nat_of_ascii c in ((65 <=? n) && (n <=? 90))%nat.

Definition is_lower (c : ascii) : bool :=
  let n := nat_of_ascii c in ((97 <=? n) && (n <=? 122))%nat.

(** [key.replace(/([A-Z])/g, '_$1')] *)
Fixpoint underscore_capitals (key : string) : string :=
  match key with
  | EmptyString => EmptyString
  | String c r =>
      if is_upper c then String "_" (String c (underscore_capitals r))
      else String c (underscore_capitals r)
  end.

(** [s.toUpperCase()], on the ASCII letters the keys are made of. *)
Fixpoint toUpperCase (s : string) : string :=
  match s with
  | EmptyString => EmptyString
  | String c r =>
      String (if is_lower c then ascii_of_nat (nat_of_ascii c - 32) else c)
             (toUpperCase r)
  end.

(** The name reported for a missing key:
    [`UPS_${key.replace(/([A-Z])/g, '_$1').toUpperCase()}`]. *)
Definition reported_name (key : string) : string :=
  "UPS_" ++ toUpperCase (underscore_capitals key).

Record UPSConfig : Type := {
  clientId : string;
  clientSecret : string;
  accountNumber : string;
  apiBaseUrl : string;
  tokenUrl : string
}.

(** The three required entries, in the order of the object literal. *)
Definition required (env : Env) : list (string * JsVal) :=
  [("clientId", env_val env "UPS_CLIENT_ID");
   ("clientSecret", env_val env "UPS_CLIENT_SECRET");
   ("accountNumber", env_val env "UPS_ACCOUNT_NUMBER")].

Definition missing (env : Env) : list string :=
  map (fun entry => reported_name (fst entry))
      (filter (fun entry => negb (truthy (snd entry))) (required env)).

(** [getUPSConfig()] *)
Definition getUPSConfig (env : Env) : Settled UPSConfig :=
  if (0 <? List.length (missing env))%nat then
    Rejected (new_CarrierConfigError
                (JStr ("Missing required UPS configuration: "
                         ++ join ", " (missing env)))
                (JArr (map JStr (missing env))))
  else
    Fulfilled
      {| clientId := to_string (env_val env "UPS_CLIENT_ID");
         clientSecret := to_string (env_val env "UPS_CLIENT_SECRET");
         accountNumber := to_string (env_val env "UPS_ACCOUNT_NUMBER");
         apiBaseUrl :=
           to_string (or_else (env_val env "UPS_API_BASE_URL")
                              (JStr "https://wwwcie.ups.com/api"));
         tokenUrl :=
           to_string (or_else (env_val env "UPS_TOKEN_URL")
                              (JStr "https://wwwcie.ups.com/security/v1/oauth/token")) |}.

Record HttpConfig : Type := {
  timeout : JsVal;
  maxRetries : JsVal
}.

(** [getHttpConfig()] *)
Definition getHttpConfig (env : Env) : HttpConfig :=
  {| timeout := parseInt10 (or_else (env_val env "HTTP_TIMEOUT") (JStr "30000"));
     maxRetries := parseInt10 (or_else (env_val env "HTTP_MAX_RETRIES") (JStr "3")) |}.

End Config.

(* ================================================================== *)
(** ** Service tables ([ups-types.ts], [rate.ts]) and the mapper
       ([ups-mapper.ts]) *)
(* ================================================================== *)

Module UPSMapper.

(** The members of [ServiceLevelSchema]. *)
Definition ServiceLevel : list string :=
  ["GROUND"; "NEXT_DAY_AIR"; "NEXT_DAY_AIR_SAVER"; "SECOND_DAY_AIR";
   "SECOND_DAY_AIR_AM"; "THREE_DAY_SELECT"; "EXPRESS"; "EXPRESS_PLUS";
   "STANDARD"].

Definition UPS_SERVICE_CODES : list (string * string) :=
  [("GROUND", "03"); ("NEXT_DAY_AIR", "01"); ("NEXT_DAY_AIR_SAVER", "13");
   ("SECOND_DAY_AIR", "02"); ("SECOND_DAY_AIR_AM", "59");
   ("THREE_DAY_SELECT", "12"); ("EXPRESS", "07"); ("EXPRESS_PLUS", "54");
   ("STANDARD", "11")].

Definition UPS_SERVICE_NAMES : list (string * string) :=
  [("01", "UPS Next Day Air"); ("02", "UPS Second Day Air");
   ("03", "UPS Ground"); ("07", "UPS Worldwide Express");
   ("08", "UPS Worldwide Expedited"); ("11", "UPS Standard");
   ("12", "UPS Three-Day Select"); ("13", "UPS Next Day Air Saver");
   ("14", "UPS Next Day Air Early AM"); ("54", "UPS Worldwide Express Plus");
   ("59", "UPS Second Day Air AM"); ("65", "UPS Saver")].

(** [table[key]] for a key the table has as its own property. *)
Fixpoint lookup (key : string) (table : list (string * string)) : option string :=
  match table with
  | [] => None
  | (k, v) :: r => if String.eqb key k then Some v else lookup key r
  end.

(** The properties every object literal inherits from
    [Object.prototype]. *)
Definition Object_prototype : list string :=
  ["constructor"; "hasOwnProperty"; "isPrototypeOf"; "propertyIsEnumerable";
   "toLocaleString"; "toString"; "valueOf"; "__proto__";
   "__defineGetter__"; "__defineSetter__"; "__lookupGetter__";
   "__lookupSetter__"].

(** What [table[key]] yields for an arbitrary key: the table's own
    entry, or a property inherited from [Object.prototype] (a function,
    or the prototype itself), or [undefined]. *)
Inductive Property : Type :=
| Own (value : string)
| Inherited (key : string)
| Missing.

Definition property (key : string) (table : list (string * string)) : Property :=
  match lookup key table with
  | Some value => Own value
  | None =>
      if existsb (String.eqb key) Object_prototype then Inherited key else Missing
  end.

(** [getServiceLevel(serviceCode)] *)
Definition getServiceLevel (serviceCode : string) : Property :=
  let reverseMap :=
    [("01", "NEXT_DAY_AIR"); ("02", "SECOND_DAY_AIR"); ("03", "GROUND");
     ("07", "EXPRESS"); ("11", "STANDARD"); ("12", "THREE_DAY_SELECT");
     ("13", "NEXT_DAY_AIR_SAVER"); ("54", "EXPRESS_PLUS");
     ("59", "SECOND_DAY_AIR_AM")] in
  property serviceCode reverseMap.

(** [normalizeRatedShipments(ratedShipment)] *)
Definition normalizeRatedShipments (ratedShipment : JsVal) : list JsVal :=
  match ratedShipment with
  | JArr items => items
  | _ => [ratedShipment]
  end.

(** [Address] ([domain/models/address.ts]) and [UPSAddress]. *)
Record Address : Type := {
  street1 : string;
  street2 : option string;
  street3 : option string;
  city : string;
  state : option string;
  postalCode : string;
  country : string;
  residential : option bool
}.

Record UPSAddress : Type := {
  AddressLine : option (list string);
  City : string;
  StateProvinceCode : option string;
  PostalCode : string;
  CountryCode : string;
  ResidentialAddressIndicator : option string
}.

(** An optional string that passes [if (s)]: set and not empty. *)
Definition given (s : option string) : option string :=
  match s with
  | Some t => if String.eqb t "" then None else Some t
  | None => None
  end.

Definition pushed (s : option string) : list string :=
  match given s with Some t => [t] | None => [] end.

(** [toUPSAddress(address)] *)
Definition toUPSAddress (address : Address) : UPSAddress :=
  let addressLines :=
    ([street1 address] ++ pushed (street2 address) ++ pushed (street3 address))%list in
  {| City := city address;
     PostalCode := postalCode address;
     CountryCode := country address;
     AddressLine :=
       if (0 <? List.length addressLines)%nat then Some addressLines else None;
     StateProvinceCode := given (state address);
     ResidentialAddressIndicator :=
       match residential address with Some true => Some "Y" | _ => None end |}.

End UPSMapper.

(* ================================================================== *)
(** ** UPSCarrier ([carriers/ups/ups-carrier.ts]) *)
(* ================================================================== *)

Module UPSCarrier.
Import Axios.

Record UPSCarrierConfig : Type := {
  clientId : string;
  clientSecret : string;
  accountNumber : string;
  apiBaseUrl : JsVal;
  tokenUrl : JsVal;
  timeout : JsVal
}.

Record t : Type := {
  httpClient : HttpClient.t;
  authProvider : UPSAuth.Provider;
  account : string;
  baseUrl : JsVal
}.

(** [Number(v)] for the declared type [number | undefined] of
    [config.timeout]. *)
Definition Number (v : JsVal) : JsVal :=
  match v with
  | JNum n => JNum n
  | _ => JNaN
  end.

(** [constructor(config)] *)
Definition new (config : UPSCarrierConfig) : t :=
  let apiBaseUrl := or_else (apiBaseUrl config) (JStr "https://wwwcie.ups.com/api") in
  {| account := accountNumber config;
     baseUrl := apiBaseUrl;
     httpClient :=
       HttpClient.new
         {| HttpClient.cfg_baseURL := apiBaseUrl;
            HttpClient.cfg_timeout := or_else (timeout config) (JNum 30000);
            HttpClient.cfg_maxRetries := JNum 3;
            HttpClient.cfg_retryDelay := JUndefined |};
     authProvider :=
       UPSAuth.new
         {| UPSAuth.clientId := clientId config;
            UPSAuth.clientSecret := clientSecret config;
            UPSAuth.tokenUrl :=
              to_string (or_else (tokenUrl config)
                           (JStr "https://wwwcie.ups.com/security/v1/oauth/token"));
            UPSAuth.cfg_timeout := Number (timeout config) |} |}.

Definition isArray (v : JsVal) : bool :=
  match v with JArr _ => true | _ => false end.

Definition TypeError (message : string) : JsVal := JError "TypeError" message [].

(** The [TypeError] of reading property [prop] of [v], which is
    [undefined] or [null]. *)
Definition cannot_read (v : JsVal) (prop : string) : JsVal :=
  TypeError ("Cannot read properties of "
               ++ match v with JNull => "null" | _ => "undefined" end
               ++ " (reading '" ++ prop ++ "')").

(** [handleUPSError(errorData): never]; the result is what it throws. *)
Definition handleUPSError (errorData : JsVal) : JsVal :=
  match get errorData "response" with
  | None => cannot_read errorData "response"
  | Some response =>
      let errors := getq response "errors" in
      if truthy errors && isArray errors then
        let firstError := index0 errors in
        new_CarrierBusinessError
          (or_else (getq firstError "message") (JStr "UPS API error"))
          (or_else (getq firstError "code") (JStr "UNKNOWN"))
          (JStr "UPS") errorData
      else
        new_CarrierResponseError (JStr "Unexpected error response from UPS")
                                 errorData (JStr "UPS") JUndefined
  end.

Definition is_kind (cls : ErrorClass) (v : JsVal) : bool :=
  match v with
  | JCarrierError c _ _ _ _ _ =>
      match c, cls with
      | CarrierAuthError, CarrierAuthError
      | CarrierNetworkError, CarrierNetworkError
      | CarrierValidationError, CarrierValidationError
      | CarrierRateLimitError, CarrierRateLimitError
      | CarrierResponseError, CarrierResponseError
      | CarrierBusinessError, CarrierBusinessError
      | CarrierConfigError, CarrierConfigError => true
      | _, _ => false
      end
  | _ => false
  end.

(** What the [catch] block of [makeRatingRequest] throws for the error
    it caught. *)
Definition makeRatingRequest_catch (error : JsVal) : JsVal :=
  if is_kind CarrierNetworkError error && truthy (getq error "originalError") then
    let axiosError := getq error "originalError" in
    let data := getq (getq axiosError "response") "data" in
    if truthy data then handleUPSError data else error
  else error.

(** [makeRatingRequest(request, token)]: the request goes through the
    axios instance of the [HttpClient] ([getClient()]), not through its
    retry loop; [posted] is what the network answers. *)
Definition makeRatingRequest (c : t) (posted : Settled JsVal) : Settled JsVal :=
  match through (HttpClient.client (httpClient c)) posted with
  | Fulfilled response =>
      match get response "data" with
      | Some data => Fulfilled data
      | None =>
          Rejected (makeRatingRequest_catch (cannot_read response "data"))
      end
  | Rejected error => Rejected (makeRatingRequest_catch error)
  end.

(** The test [getRates] applies to the error it caught before it
    refreshes the token and sends the rating request once more:
    [error instanceof CarrierNetworkError && error.statusCode === 401]. *)
Definition refreshes_on (error : JsVal) : bool :=
  is_kind CarrierNetworkError error && is_num (getq error "statusCode") 401.

(** *** [parseRatingResponse]

    [UPSMapper.toRateQuote] computes with floating point numbers and
    dates; it enters here as a function that returns a quote or throws. *)
Section ParseRatingResponse.

Context {Quote : Type}.
Variable toRateQuote : JsVal -> Settled Quote.

(** [shipments.map(shipment => UPSMapper.toRateQuote(shipment))] *)
Fixpoint toRateQuotes (shipments : list JsVal) : Settled (list Quote) :=
  match shipments with
  | [] => Fulfilled []
  | shipment :: rest =>
      match toRateQuote shipment with
      | Rejected e => Rejected e
      | Fulfilled quote =>
          match toRateQuotes rest with
          | Rejected e => Rejected e
          | Fulfilled quotes => Fulfilled (quote :: quotes)
          end
      end
  end.

(** The [try] block.  The alerts are only logged. *)
Definition parseRatingResponse_try (response : JsVal) : Settled (list Quote) :=
  match get response "RateResponse" with
  | None => Rejected (cannot_read response "RateResponse")
  | Some rateResponse =>
      if negb (truthy rateResponse) then
        Rejected (new_CarrierResponseError
                    (JStr "Invalid response: missing RateResponse")
                    response (JStr "UPS") JUndefined)
      else
        match get (getq rateResponse "Response") "ResponseStatus" with
        | None => Rejected (cannot_read (getq rateResponse "Response") "ResponseStatus")
        | Some responseStatus =>
            match get responseStatus "Code" with
            | None => Rejected (cannot_read responseStatus "Code")
            | Some code =>
                if negb (is_str code "1") then
                  let description := getq responseStatus "Description" in
                  Rejected (new_CarrierBusinessError
                              (or_else description (JStr "Rating request failed"))
                              code (JStr "UPS") response)
                else
                  let RatedShipment := getq rateResponse "RatedShipment" in
                  if negb (truthy RatedShipment) then Fulfilled []
                  else toRateQuotes (UPSMapper.normalizeRatedShipments RatedShipment)
            end
        end
  end.

(** [parseRatingResponse(response)] *)
Definition parseRatingResponse (response : JsVal) : Settled (list Quote) :=
  match parseRatingResponse_try response with
  | Fulfilled quotes => Fulfilled quotes
  | Rejected error =>
      if is_kind CarrierBusinessError error || is_kind CarrierResponseError error
      then Rejected error
      else Rejected (new_CarrierResponseError
                       (JStr ("Failed to parse UPS rating response: " ++ to_string error))
                       response (JStr "UPS") JUndefined)
  end.

End ParseRatingResponse.

End UPSCarrier.

(* ================================================================== *)
(** ** Worked instances *)
(* ================================================================== *)

Module Demo.
Import UPSAuth.

(** A configuration and two token responses for the worked instances. *)
Definition demo_config : UPSAuthConfig :=
  {| clientId := "test-client-id"; clientSecret := "test-client-secret";
     tokenUrl := "https://wwwcie.ups.com/security/v1/oauth/token";
     cfg_timeout := JUndefined |}.

Definition token_response (token : string) (lifetime : Z) : UPSTokenResponse :=
  {| access_token := JStr token; token_type := JStr "Bearer";
     expires_in := lifetime |}.

Definition tokenless_response : UPSTokenResponse :=
  {| access_token := JUndefined; token_type := JStr "Bearer"; expires_in := 3600 |}.

End Demo.

(* ================================================================== *)
(** ** Properties of the transport *)
(* ================================================================== *)

Module TransportFacts.
Import Axios HttpClient.

Example parseInt10_30 : parseInt10 (JStr "30") = JNum 30.
Proof. reflexivity. Qed.

Example parseInt10_date : parseInt10 (JStr "Wed, 21 Oct 2015 07:28:00 GMT") = JNaN.
Proof. reflexivity. Qed.

Example parseInt10_prefix : parseInt10 (JStr "  12abc") = JNum 12.
Proof. reflexivity. Qed.

(** Of the raw axios errors, [shouldRetry] accepts a 503 and a 429 and
    refuses a 400. *)
Example shouldRetry_raw_503 :
  shouldRetry (AxiosError "Request failed with status code 503"
                          (JStr "ERR_BAD_RESPONSE") (Response 503 JNull [])) = true.
Proof. reflexivity. Qed.

Example shouldRetry_raw_429 :
  shouldRetry (AxiosError "Request failed with status code 429"
                          (JStr "ERR_BAD_REQUEST") (Response 429 JNull [])) = true.
Proof. reflexivity. Qed.

Example shouldRetry_raw_400 :
  shouldRetry (AxiosError "Request failed with status code 400"
                          (JStr "ERR_BAD_REQUEST") (Response 400 JNull [])) = false.
Proof. reflexivity. Qed.

(** The response interceptor installed by the constructor turns every
    rejection into what [handleError] throws for it. *)
Lemma through_rejected (config : HttpClientConfig) (error : JsVal) :
  through (client (HttpClient.new config)) (Rejected error)
  = Rejected (handleError error).
Proof. reflexivity. Qed.

Lemma through_fulfilled (config : HttpClientConfig) (response : JsVal) :
  through (client (HttpClient.new config)) (Fulfilled response)
  = Fulfilled response.
Proof. reflexivity. Qed.

(** A [CarrierError] is not an axios error and has no [isAxiosError]
    property, so [shouldRetry] refuses it. *)
Lemma shouldRetry_carrier_error cls message code carrier originalError extra :
  shouldRetry (JCarrierError cls message code carrier originalError extra) = false.
Proof. destruct cls; reflexivity. Qed.

(** Whatever [handleError] is given, what it throws is not retried. *)
Lemma handleError_kind_or_TypeError (error : JsVal) :
  (exists cls message code carrier originalError extra,
      handleError error = JCarrierError cls message code carrier originalError extra)
  \/ handleError error = JError "TypeError" "error.message.includes is not a function" [].
Proof.
  unfold handleError.
  repeat match goal with
         | |- context [if ?b then _ else _] => destruct b
         | |- context [match ?x with _ => _ end] => destruct x
         end;
    try (left; unfold new_CarrierRateLimitError, new_CarrierNetworkError,
         new_CarrierBusinessError, new_CarrierResponseError;
         do 6 eexists; reflexivity);
    try (right; reflexivity).
Qed.

Lemma shouldRetry_handleError (error : JsVal) :
  shouldRetry (handleError error) = false.
Proof.
  destruct (handleError_kind_or_TypeError error)
    as [(cls & m & c & ca & o & x & ->) | ->].
  - apply shouldRetry_carrier_error.
  - reflexivity.
Qed.

(** The retry loop ends within [maxRetries - retryCount + 1] calls. *)
Lemma requestWithRetry_total (c : t) (requestFn : Z -> Settled JsVal) :
  forall (fuel : nat) (retryCount : Z),
    (Z.to_nat (maxRetries c - retryCount) < fuel)%nat ->
    exists r, requestWithRetry fuel c requestFn retryCount = Some r.
Proof.
  induction fuel as [|fuel IH]; intros retryCount Hfuel; [lia|].
  simpl. destruct (requestFn retryCount) as [v|error]; [eauto|].
  destruct (retryCount <? maxRetries c) eqn:Hlt; simpl; [|eauto].
  destruct (shouldRetry error); [|eauto].
  apply Z.ltb_lt in Hlt.
  destruct (IH (retryCount + 1)) as [[events result] ->]; [lia|eauto].
Qed.

Lemma run_total (c : t) (requestFn : Z -> Settled JsVal) :
  exists r, run c requestFn = Some r.
Proof. apply requestWithRetry_total. rewrite Z.sub_0_r. lia. Qed.

Lemma requestWithRetry_step (fuel : nat) (c : t) (requestFn : Z -> Settled JsVal)
      (retryCount : Z) :
  requestWithRetry (S fuel) c requestFn retryCount
  = match requestFn retryCount with
    | Fulfilled v => Some ([Attempt retryCount], Fulfilled v)
    | Rejected error =>
        if (retryCount <? maxRetries c) && shouldRetry error then
          match requestWithRetry fuel c requestFn (retryCount + 1) with
          | Some (events, result) =>
              Some (Attempt retryCount
                      :: Delay (retryDelay c * 2 ^ retryCount) :: events, result)
          | None => None
          end
        else Some ([Attempt retryCount], Rejected error)
    end.
Proof. reflexivity. Qed.

(** A request function that keeps rejecting with an error [shouldRetry]
    accepts is called until the budget is spent, and the last error is
    rethrown. *)
Lemma requestWithRetry_always_retryable (c : t) (error : JsVal) :
  shouldRetry error = true ->
  forall (left : nat) (retryCount : Z),
    maxRetries c - retryCount = Z.of_nat left ->
    requestWithRetry (S left) c (fun _ => Rejected error) retryCount
    = Some (backoff c retryCount left, Rejected error).
Proof.
  intros Hretry. induction left as [|left IH]; intros retryCount Hleft.
  - simpl. replace (retryCount <? maxRetries c) with false; [reflexivity|].
    symmetry. apply Z.ltb_ge. lia.
  - rewrite requestWithRetry_step.
    replace (retryCount <? maxRetries c) with true
      by (symmetry; apply Z.ltb_lt; lia).
    rewrite Hretry. cbn [andb].
    rewrite IH by lia. reflexivity.
Qed.

(** The retry loop on its own, fed the raw axios error of a 503 (that
    is, with no interceptor between the loop and the network), does what
    the specification describes: four attempts, delays 1000, 2000 and
    4000 ms, the raw error rethrown. *)
Lemma run_raw_503 (message : string) (code data : JsVal)
      (headers : list (string * JsVal)) (baseURL timeout : JsVal) :
  let c := HttpClient.new {| cfg_baseURL := baseURL; cfg_timeout := timeout;
                             cfg_maxRetries := JNum 3;
                             cfg_retryDelay := JNum 1000 |} in
  let error := AxiosError message code (Response 503 data headers) in
  run c (fun _ => Rejected error)
  = Some ([Attempt 0; Delay 1000; Attempt 1; Delay 2000; Attempt 2;
           Delay 4000; Attempt 3], Rejected error).
Proof.
  intros c error. unfold run.
  change (S (Z.to_nat (maxRetries c))) with 4%nat.
  rewrite (requestWithRetry_always_retryable c error eq_refl 3 0 eq_refl).
  reflexivity.
Qed.

(** Through the client, a request whose every answer is rejected is
    attempted once: the interceptor has replaced the error before the
    loop looks at it. *)
Lemma request_rejected_once (config : HttpClientConfig) (adapter : Z -> Settled JsVal)
      (error : JsVal) :
  adapter 0 = Rejected error ->
  request (HttpClient.new config) adapter
  = Some ([Attempt 0], Rejected (handleError error)).
Proof.
  intros H0. unfold request, run. rewrite requestWithRetry_step.
  rewrite H0, through_rejected, shouldRetry_handleError, andb_false_r.
  reflexivity.
Qed.

End TransportFacts.

(* ================================================================== *)
(** ** What the specification states about the transport *)
(* ================================================================== *)

Import Axios.

(** What [handleError] throws for the axios error of a response with
    status [status], by cases on the status as the source has them. *)
Lemma handleError_of_response (message : string) (code data : JsVal)
      (headers : list (string * JsVal)) (status : Z) :
  HttpClient.handleError (AxiosError message code (Response status data headers))
  = if status =? 429 then
      new_CarrierRateLimitError
        (JStr "Request rate limited") (JStr "UNKNOWN") code
        (if truthy (getq (JObj headers) "retry-after")
         then parseInt10 (getq (JObj headers) "retry-after") else JUndefined)
    else if negb (status =? 0) && (500 <=? status) then
      new_CarrierNetworkError (JStr ("Server error: " ++ message))
                              (JStr "UNKNOWN") code (JNum status)
    else if negb (status =? 0) && (400 <=? status) && (status <? 500) then
      match HttpClient.upsError_of data with
      | Some upsError =>
          new_CarrierBusinessError
            (or_else (getq upsError "message") (JStr "Business validation error"))
            (JStr "UPS") (getq upsError "code") data
      | None =>
          new_CarrierResponseError (JStr ("Client error: " ++ message))
                                   (JStr "UNKNOWN") code data
      end
    else
      new_CarrierNetworkError (JStr message) (JStr "UNKNOWN") code (JNum status).
Proof. reflexivity. Qed.

(** [parseInt] gives a number or [NaN], never a string. *)
Lemma parseInt10_number (v : JsVal) :
  (exists n, parseInt10 v = JNum n) \/ parseInt10 v = JNaN.
Proof.
  unfold parseInt10.
  destruct (match skip_spaces (to_string v) with
            | String "-" r => (true, r)
            | String "+" r => (false, r)
            | _ => (false, skip_spaces (to_string v))
            end) as [neg body].
  destruct (digits body None); eauto.
Qed.

(** C2 (the code departs from the specification).  With [maxRetries = 3] and
    [retryDelay = 1000], a request through the client against a server
    that answers 503 every time is put on the wire once, waits for no
    delay, and is rejected with a Network-kind error: the response
    interceptor has already replaced the axios error by a
    [CarrierNetworkError], which [shouldRetry] refuses.  The specification asks
    for four attempts with delays of 1, 2 and 4 seconds. *)
Theorem C2_always_503_attempted_once (message : string) (code data : JsVal)
        (headers : list (string * JsVal)) (baseURL timeout : JsVal) :
  let c := HttpClient.new
             {| HttpClient.cfg_baseURL := baseURL;
                HttpClient.cfg_timeout := timeout;
                HttpClient.cfg_maxRetries := JNum 3;
                HttpClient.cfg_retryDelay := JNum 1000 |} in
  let error := AxiosError message code (Response 503 data headers) in
  exists events thrown,
    HttpClient.request c (fun _ => Rejected error) = Some (events, Rejected thrown)
    /\ HttpClient.attempts events = 1%nat
    /\ HttpClient.delays events = []
    /\ kind thrown = Some CarrierNetworkError.
Proof.
  intros c error.
  exists [HttpClient.Attempt 0], (HttpClient.handleError error).
  split; [|split; [reflexivity|split; reflexivity]].
  apply TransportFacts.request_rejected_once. reflexivity.
Qed.

(** C3 (the code departs from the specification).  For a 429 whose response
    carries a [retry-after] header, the error thrown is of kind
    RateLimit, but its [retryAfter] field is the string ['UNKNOWN']: the
    constructor is called with (message, 'UNKNOWN', code, seconds) while
    the class takes (message, retryAfter, carrier, originalError), so
    the parsed integer ends up in [originalError] and the axios error
    code in [carrier]. *)
Theorem C3_retryAfter_is_UNKNOWN (message : string) (code data : JsVal)
        (header : string) :
  let error := AxiosError message code
                 (Response 429 data [("retry-after", JStr header)]) in
  let thrown := HttpClient.handleError error in
  kind thrown = Some CarrierRateLimitError
  /\ retryAfter thrown = JStr "UNKNOWN"
  /\ carrier thrown = code
  /\ originalError thrown
     = (if truthy (JStr header) then parseInt10 (JStr header) else JUndefined)
  /\ retryAfter thrown <> parseInt10 (JStr header).
Proof.
  intros error thrown. subst thrown error.
  rewrite handleError_of_response. cbn.
  repeat split; try reflexivity.
  destruct (parseInt10_number (JStr header)) as [[n ->] | ->]; discriminate.
Qed.

(** C4 (the code departs from the specification).  For every status from 500 up,
    the error thrown is of kind Network, but its [statusCode] field is
    the string ['UNKNOWN']: the constructor is called with (message,
    'UNKNOWN', code, status) while the class takes (message, statusCode,
    carrier, originalError), so the status ends up in [originalError]. *)
Theorem C4_statusCode_is_UNKNOWN (message : string) (code data : JsVal)
        (headers : list (string * JsVal)) (above : nat) :
  let status := 500 + Z.of_nat above in
  let thrown := HttpClient.handleError
                  (AxiosError message code (Response status data headers)) in
  kind thrown = Some CarrierNetworkError
  /\ statusCode thrown = JStr "UNKNOWN"
  /\ statusCode thrown <> JNum status
  /\ carrier thrown = code
  /\ originalError thrown = JNum status.
Proof.
  intros status thrown. subst thrown.
  rewrite handleError_of_response.
  assert (H429 : (status =? 429) = false) by (apply Z.eqb_neq; lia).
  assert (H0 : (status =? 0) = false) by (apply Z.eqb_neq; lia).
  assert (H500 : (500 <=? status) = true) by (apply Z.leb_le; lia).
  rewrite H429, H0, H500. cbn.
  repeat split; try reflexivity. discriminate.
Qed.

(** C5 (the code departs from the specification).  A 400 whose body is the
    carrier's envelope [{response: {errors: [{code, message}, ...]}}] is
    thrown as a Business-kind error with the entry's message, but its
    [code] is the string ['UPS'] and the entry's code sits in [carrier]:
    the constructor is called with (message, 'UPS', code, data) while the
    class takes (message, code, carrier, originalError).  A 404 with any
    other body is thrown as a Response-kind error whose [response] field
    is ['UNKNOWN']; the raw body is in [originalError]. *)
Theorem C5_business_code_is_UPS (message : string) (code : JsVal)
        (entryCode entryMessage : string) (more : list JsVal)
        (headers : list (string * JsVal)) :
  let entry := JObj [("code", JStr entryCode); ("message", JStr entryMessage)] in
  let envelope := JObj [("response", JObj [("errors", JArr (entry :: more))])] in
  let business := HttpClient.handleError
                    (AxiosError message code (Response 400 envelope headers)) in
  let plain := JStr "Not Found" in
  let other := HttpClient.handleError
                 (AxiosError message code (Response 404 plain headers)) in
  kind business = Some CarrierBusinessError
  /\ Errors.code business = JStr "UPS"
  /\ carrier business = JStr entryCode
  /\ originalError business = envelope
  /\ Errors.message business
     = JStr (if String.eqb entryMessage "" then "Business validation error"
             else entryMessage)
  /\ kind other = Some CarrierResponseError
  /\ response other = JStr "UNKNOWN"
  /\ originalError other = plain.
Proof.
  intros entry envelope business plain other.
  subst business other. rewrite !handleError_of_response. cbn.
  repeat split; try reflexivity.
  unfold or_else. cbn. destruct (String.eqb entryMessage ""); reflexivity.
Qed.

(** C10.  A zero in the configuration is replaced by the default, just
    as a missing field is: [maxRetries = 0] gives a budget of 3,
    [retryDelay = 0] a base delay of 1000 ms and [timeout = 0] a timeout
    of 30000 ms in [HttpClient]; [timeout = 0] gives 10000 ms in
    [UPSAuthProvider]. *)
Theorem C10_zero_configuration_takes_defaults :
  (forall baseURL timeout retryDelay,
      HttpClient.maxRetries
        (HttpClient.new {| HttpClient.cfg_baseURL := baseURL;
                           HttpClient.cfg_timeout := timeout;
                           HttpClient.cfg_maxRetries := JNum 0;
                           HttpClient.cfg_retryDelay := retryDelay |}) = 3)
  /\ (forall baseURL timeout maxRetries,
         HttpClient.retryDelay
           (HttpClient.new {| HttpClient.cfg_baseURL := baseURL;
                              HttpClient.cfg_timeout := timeout;
                              HttpClient.cfg_maxRetries := maxRetries;
                              HttpClient.cfg_retryDelay := JNum 0 |}) = 1000)
  /\ (forall baseURL maxRetries retryDelay,
         timeout
           (HttpClient.client
              (HttpClient.new {| HttpClient.cfg_baseURL := baseURL;
                                 HttpClient.cfg_timeout := JNum 0;
                                 HttpClient.cfg_maxRetries := maxRetries;
                                 HttpClient.cfg_retryDelay := retryDelay |}))
         = 30000)
  /\ (forall clientId clientSecret tokenUrl,
         timeout
           (UPSAuth.httpClient
              (UPSAuth.new {| UPSAuth.clientId := clientId;
                              UPSAuth.clientSecret := clientSecret;
                              UPSAuth.tokenUrl := tokenUrl;
                              UPSAuth.cfg_timeout := JNum 0 |}))
         = 10000)
  /\ (forall d, HttpClient.num_or (JNum 0) d = HttpClient.num_or JUndefined d).
Proof. repeat split. Qed.

(* ================================================================== *)
(** ** Properties of the provider *)
(* ================================================================== *)

Module ProviderFacts.
Import UPSAuth Scheduler.

(** Whatever [acquireToken]'s [catch] block is given, it throws an Auth
    error carrying the carrier name. *)
Lemma acquireToken_catch_Auth (error : JsVal) :
  exists message originalError,
    acquireToken_catch error
    = JCarrierError CarrierAuthError message (JStr "AUTH_ERROR") (JStr "UPS")
                    originalError JUndefined.
Proof.
  unfold acquireToken_catch, new_CarrierAuthError.
  repeat match goal with
         | |- context [if ?b then _ else _] => destruct b
         end; eauto.
Qed.


(** A successful one caches the credential it returns the token of, with
    [expiresAt = now + expires_in]. *)
Lemma acquireToken_resume_fulfilled nowMs d p :
  truthy (access_token d) = true ->
  acquireToken_resume nowMs (Fulfilled (Some d)) p
  = (set_cachedToken p
       (Some {| accessToken := access_token d; tokenType := token_type d;
                expiresIn := expires_in d;
                expiresAt := seconds nowMs + expires_in d |}),
     Fulfilled (access_token d)).
Proof.
  intros H. unfold acquireToken_resume, acquireToken_try. rewrite H. reflexivity.
Qed.

(** An error whose [response.status] is 429 is an object with a
    [response] property. *)
Lemma status_is_number_shape (error : JsVal) (n : Z) :
  getq (getq error "response") "status" = JNum n ->
  truthy error = true /\ typeof_object error = true
  /\ has_prop "response" error = true.
Proof.
  unfold has_prop, getq at 2, get.
  destruct error; cbn; try discriminate;
    match goal with
    | |- context [match ?x with Some _ => _ | None => _ end] =>
        destruct x; cbn; try discriminate; auto
    end.
Qed.

(** *** Calls *)

Lemma getToken_cached nowMs c w :
  hasValidToken nowMs (self w) = true ->
  exists t, cachedToken (self w) = Some t
            /\ getToken nowMs c w = deliver c (Fulfilled (accessToken t)) w.
Proof.
  intros H. unfold getToken. rewrite H.
  unfold hasValidToken in H. destruct (cachedToken (self w)) as [t|]; [|discriminate].
  eauto.
Qed.

Lemma getToken_starts nowMs c w :
  hasValidToken nowMs (self w) = false ->
  tokenPromise (self w) = None ->
  getToken nowMs c w
  = {| self := set_tokenPromise (self w) (Some (exchanges w));
       wire := wire w ++ [acquireToken_request (self w)];
       inflight := inflight w ++ [exchanges w];
       reactions := reactions w ++ [(exchanges w, Resume c)];
       outcomes := outcomes w |}.
Proof. intros Hv Hs. unfold getToken. rewrite Hv, Hs. reflexivity. Qed.

Lemma getToken_joins nowMs c w q :
  hasValidToken nowMs (self w) = false ->
  tokenPromise (self w) = Some q ->
  getToken nowMs c w
  = {| self := self w; wire := wire w; inflight := inflight w;
       reactions := reactions w ++ [(q, Adopt c)];
       outcomes := outcomes w |}.
Proof. intros Hv Hs. unfold getToken. rewrite Hv, Hs. reflexivity. Qed.

(** Calls made while an acquisition is pending and the cache is of no use
    all attach to the pending promise, and touch nothing else. *)
Lemma getTokens_join (q : nat) :
  forall (calls : list (Z * Caller)) (w : World),
    tokenPromise (self w) = Some q ->
    Forall (fun call => hasValidToken (fst call) (self w) = false) calls ->
    getTokens calls w
    = {| self := self w; wire := wire w; inflight := inflight w;
         reactions := reactions w ++ map (fun call => (q, Adopt (snd call))) calls;
         outcomes := outcomes w |}.
Proof.
  induction calls as [|call calls IH]; intros w Hs Hv.
  - cbn. rewrite app_nil_r. destruct w; reflexivity.
  - inversion Hv as [|? ? Hcall Hrest]; subst.
    unfold getTokens. cbn [fold_left].
    rewrite (getToken_joins _ _ _ q Hcall Hs).
    change (fold_left _ calls ?x) with (getTokens calls x).
    rewrite IH; cbn; auto.
    rewrite <- app_assoc. reflexivity.
Qed.

(** *** Settlement *)

Lemma fold_adopts (q : nat) (result : Settled JsVal) :
  forall (rs : list (nat * Caller)) (w : World),
    fold_left (fun acc x => react result (snd x) acc)
              (map (fun r => (fst r, Adopt (snd r))) rs) w
    = {| self := self w; wire := wire w; inflight := inflight w;
         reactions := reactions w;
         outcomes := outcomes w ++ map (fun r => (snd r, result)) rs |}.
Proof.
  induction rs as [|r rs IH]; intros w.
  - cbn. rewrite app_nil_r. destruct w; reflexivity.
  - cbn [map fold_left]. rewrite IH. cbn. rewrite <- app_assoc. reflexivity.
Qed.

Lemma filter_all_wait (q : nat) (rs : list Reaction) :
  filter (waits_on q) (map (fun r => (q, r)) rs) = map (fun r => (q, r)) rs
  /\ filter (fun x => negb (waits_on q x)) (map (fun r => (q, r)) rs) = [].
Proof.
  induction rs as [|r rs [IH1 IH2]]; [split; reflexivity|].
  cbn [map filter].
  replace (waits_on q (q, r)) with true
    by (unfold waits_on; cbn [fst]; now rewrite Nat.eqb_refl).
  cbn [negb]. rewrite IH1, IH2. split; reflexivity.
Qed.

(** When the pending acquisition settles, the call that started it
    clears the slot and every waiting call ends the way the promise did. *)
Lemma settle_acquiring nowMs q posted w c joiners :
  inflight w = [q] ->
  reactions w = (q, Resume c) :: map (fun j => (q, Adopt j)) joiners ->
  settle nowMs q posted w
  = {| self := set_tokenPromise (fst (acquireToken_resume nowMs posted (self w))) None;
       wire := wire w; inflight := []; reactions := [];
       outcomes := outcomes w
                   ++ map (fun j => (j, snd (acquireToken_resume nowMs posted (self w))))
                          (c :: joiners) |}.
Proof.
  intros Hin Hre. unfold settle. rewrite Hin, Hre. cbn [existsb].
  rewrite Nat.eqb_refl. cbn [orb].
  destruct (acquireToken_resume nowMs posted (self w)) as [p result].
  pose proof (filter_all_wait q (Resume c :: map Adopt joiners)) as [F1 F2].
  cbn [map] in F1, F2. rewrite map_map in F1, F2.
  rewrite F1, F2. cbn [filter]. rewrite Nat.eqb_refl. cbn [negb fst snd].
  cbn [fold_left react snd].
  pose proof (fold_adopts q result (map (fun j => (q, j)) joiners)) as FA.
  rewrite map_map in FA. cbn [fst snd] in FA.
  rewrite FA. cbn. rewrite map_map. cbn. f_equal.
  rewrite <- app_assoc. reflexivity.
Qed.

End ProviderFacts.

(* ================================================================== *)
(** ** At most one acquisition is pending *)
(* ================================================================== *)

Module SingleFlight.
Import UPSAuth Scheduler ProviderFacts.

Lemma single_flight_start (cfg : UPSAuthConfig) : single_flight (start cfg).
Proof. left. repeat split. Qed.

Lemma single_flight_deliver c r w : single_flight w -> single_flight (deliver c r w).
Proof. intros H. exact H. Qed.

Lemma single_flight_clearToken w : single_flight w -> single_flight (clearToken w).
Proof. intros H. exact H. Qed.

Lemma single_flight_getToken nowMs c w :
  single_flight w -> single_flight (getToken nowMs c w).
Proof.
  intros H. destruct (hasValidToken nowMs (self w)) eqn:Hv.
  - destruct (getToken_cached nowMs c w Hv) as (t & _ & ->). exact H.
  - destruct H as [(Hs & Hi & Hr) | (q & Hs & Hi & c0 & joiners & Hr)].
    + rewrite (getToken_starts _ _ _ Hv Hs). right. exists (exchanges w).
      repeat split; cbn; [now rewrite Hi|].
      exists c, []. now rewrite Hr.
    + rewrite (getToken_joins _ _ _ q Hv Hs). right. exists q.
      repeat split; cbn; auto.
      exists c0, (joiners ++ [c])%list. rewrite Hr, map_app. reflexivity.
Qed.

Lemma settle_other nowMs q q' posted w :
  inflight w = [q] -> q' <> q -> settle nowMs q' posted w = w.
Proof.
  intros Hi Hne. unfold settle. rewrite Hi. cbn.
  apply Nat.eqb_neq in Hne. rewrite Hne. reflexivity.
Qed.

Lemma settle_at_rest nowMs q posted w :
  inflight w = [] -> settle nowMs q posted w = w.
Proof. intros Hi. unfold settle. rewrite Hi. reflexivity. Qed.

Lemma single_flight_settle nowMs q posted w :
  single_flight w -> single_flight (settle nowMs q posted w).
Proof.
  intros [(Hs & Hi & Hr) | (q0 & Hs & Hi & c0 & joiners & Hr)].
  - rewrite (settle_at_rest _ _ _ _ Hi). left. repeat split; assumption.
  - destruct (Nat.eq_dec q q0) as [->|Hne].
    + rewrite (settle_acquiring _ _ _ _ _ _ Hi Hr). left. repeat split.
    + rewrite (settle_other _ _ _ _ _ Hi Hne). right. exists q0.
      repeat split; try assumption. eauto.
Qed.

Lemma single_flight_step w op : single_flight w -> single_flight (step w op).
Proof.
  destruct op; cbn [step]; unfold refreshToken; intros H.
  - now apply single_flight_getToken.
  - now apply single_flight_getToken, single_flight_clearToken.
  - now apply single_flight_clearToken.
  - now apply single_flight_settle.
Qed.

(** The shape is kept along any run. *)
Lemma single_flight_steps (ops : list Op) :
  forall w, single_flight w -> single_flight (steps ops w).
Proof.
  induction ops as [|op ops IH]; intros w H; [exact H|].
  apply (IH (step w op)), single_flight_step, H.
Qed.

(** In every world reachable from a new provider by calls and
    settlements whose jobs run uninterrupted, either nothing is pending
    or exactly one acquisition is, its promise the one in the slot, with
    the call that started it waiting first and the calls that joined it
    after.  (For jobs run one at a time, with calls between them, see
    [MicrotaskFacts.steps_keep_shape].) *)
Lemma single_flight_reachable (cfg : UPSAuthConfig) (ops : list Op) :
  single_flight (steps ops (start cfg)).
Proof. apply single_flight_steps, single_flight_start. Qed.

(** A world whose slot is empty has nothing pending. *)
Lemma empty_slot_at_rest w :
  single_flight w -> tokenPromise (self w) = None -> at_rest w.
Proof.
  intros [H | (q & Hs & _)] Hnone; [exact H|]. congruence.
Qed.

(** From rest, [n >= 1] calls that find no valid credential issue one
    exchange: the first starts it, the others attach to its promise. *)
Lemma getTokens_from_rest (w : World) (first : Z * Caller) (others : list (Z * Caller)) :
  at_rest w ->
  Forall (fun call => hasValidToken (fst call) (self w) = false) (first :: others) ->
  getTokens (first :: others) w
  = {| self := set_tokenPromise (self w) (Some (exchanges w));
       wire := wire w ++ [acquireToken_request (self w)];
       inflight := [exchanges w];
       reactions := (exchanges w, Resume (snd first))
                      :: map (fun call => (exchanges w, Adopt (snd call))) others;
       outcomes := outcomes w |}.
Proof.
  intros (Hs & Hi & Hr) Hv. inversion Hv as [|? ? Hfirst Hothers]; subst.
  unfold getTokens. cbn [fold_left].
  rewrite (getToken_starts _ _ _ Hfirst Hs).
  change (fold_left _ others ?x) with (getTokens others x).
  rewrite (getTokens_join (exchanges w)); cbn; auto.
  now rewrite Hi, Hr.
Qed.

End SingleFlight.

(* ================================================================== *)
(** ** Jobs one at a time: the run that [settle] stands for, and the
       shape of every reachable world *)
(* ================================================================== *)

Module MicrotaskFacts.
Import UPSAuth Scheduler ProviderFacts.

Lemma run_adopts (result : Settled JsVal) :
  forall (cs : list Caller) (b : World),
    Microtasks.run_jobs (map (fun j => (Adopt j, result)) cs) b
    = {| self := self b; wire := wire b; inflight := inflight b;
         reactions := reactions b;
         outcomes := outcomes b ++ map (fun j => (j, result)) cs |}.
Proof.
  induction cs as [|c cs IH]; intros b.
  - cbn. rewrite app_nil_r. destruct b; reflexivity.
  - unfold Microtasks.run_jobs in *. cbn [map fold_left fst snd react].
    rewrite IH. cbn. rewrite <- app_assoc. reflexivity.
Qed.

Lemma run_resume_adopts (result : Settled JsVal) (c : Caller) (cs : list Caller)
      (b : World) :
  Microtasks.run_jobs ((Resume c, result) :: map (fun j => (Adopt j, result)) cs) b
  = {| self := set_tokenPromise (self b) None; wire := wire b;
       inflight := inflight b; reactions := reactions b;
       outcomes := outcomes b ++ map (fun j => (j, result)) (c :: cs) |}.
Proof.
  unfold Microtasks.run_jobs. cbn [fold_left fst snd react].
  fold (Microtasks.run_jobs (map (fun j => (Adopt j, result)) cs)
          (deliver c result (with_self b (set_tokenPromise (self b) None)))).
  rewrite run_adopts. cbn. rewrite <- app_assoc. reflexivity.
Qed.

Lemma run_jobs_of_reactions (result : Settled JsVal) :
  forall (rs : list (nat * Reaction)) (b : World),
    Microtasks.run_jobs (map (fun x => (snd x, result)) rs) b
    = fold_left (fun acc x => react result (snd x) acc) rs b.
Proof.
  induction rs as [|r rs IH]; intros b; [reflexivity|].
  unfold Microtasks.run_jobs in *. cbn [map fold_left fst snd]. apply IH.
Qed.

(** [settle] is the settlement of the promise followed by the run of
    every job, with nothing in between. *)
Lemma settle_is_uninterrupted nowMs q posted (w : Microtasks.World) :
  Microtasks.jobs w = [] ->
  Microtasks.base (Microtasks.drain (Microtasks.resolve nowMs q posted w))
  = settle nowMs q posted (Microtasks.base w).
Proof.
  intros Hjobs. unfold Microtasks.drain, Microtasks.resolve, settle.
  destruct (existsb (Nat.eqb q) (inflight (Microtasks.base w))).
  - destruct (acquireToken_resume nowMs posted (self (Microtasks.base w)))
      as [p result].
    cbn [Microtasks.base Microtasks.jobs]. rewrite Hjobs. cbn [app].
    apply run_jobs_of_reactions.
  - cbn [Microtasks.base]. now rewrite Hjobs.
Qed.

Lemma tokenPromise_resume nowMs posted p :
  tokenPromise (fst (acquireToken_resume nowMs posted p)) = tokenPromise p.
Proof.
  unfold acquireToken_resume. destruct (acquireToken_try nowMs posted); reflexivity.
Qed.

(** A promise numbered from the next exchange on has not settled. *)
Lemma result_of_fresh (n : nat) :
  forall (l : list (nat * Settled JsVal)) (q : nat),
    Forall (fun x => (fst x < n)%nat) l -> (n <= q)%nat ->
    Microtasks.result_of q l = None.
Proof.
  induction l as [|[q' r] l IH]; intros q Hl Hq; [reflexivity|].
  inversion Hl as [|? ? Hhead Htail]; subst. cbn in *.
  replace (Nat.eqb q q') with false by (symmetry; apply Nat.eqb_neq; lia).
  now apply IH.
Qed.

(** *** The calls, case by case *)

Lemma getToken_serves_cache nowMs c (w : Microtasks.World) :
  hasValidToken nowMs (Microtasks.self w) = true ->
  exists t, cachedToken (Microtasks.self w) = Some t
            /\ Microtasks.getToken nowMs c w
               = Microtasks.lift (deliver c (Fulfilled (accessToken t))) w.
Proof.
  intros Hv. unfold Microtasks.getToken. unfold Microtasks.self in *. rewrite Hv.
  destruct (ProviderFacts.getToken_cached nowMs c (Microtasks.base w) Hv)
    as (t & Ht & Heq).
  exists t. split; [exact Ht|]. unfold Microtasks.lift. now rewrite Heq.
Qed.

Lemma getToken_starts_exchange nowMs c (w : Microtasks.World) :
  hasValidToken nowMs (Microtasks.self w) = false ->
  tokenPromise (Microtasks.self w) = None ->
  Microtasks.getToken nowMs c w
  = {| Microtasks.base :=
         {| self := set_tokenPromise (Microtasks.self w) (Some (Microtasks.exchanges w));
            wire := wire (Microtasks.base w)
                    ++ [acquireToken_request (Microtasks.self w)];
            inflight := inflight (Microtasks.base w) ++ [Microtasks.exchanges w];
            reactions := reactions (Microtasks.base w)
                         ++ [(Microtasks.exchanges w, Resume c)];
            outcomes := outcomes (Microtasks.base w) |};
       Microtasks.settled := Microtasks.settled w;
       Microtasks.jobs := Microtasks.jobs w |}.
Proof.
  intros Hv Hs. unfold Microtasks.getToken, Microtasks.self in *. rewrite Hv, Hs.
  unfold Microtasks.lift. now rewrite (ProviderFacts.getToken_starts _ _ _ Hv Hs).
Qed.

Lemma getToken_joins_pending nowMs c (w : Microtasks.World) q :
  hasValidToken nowMs (Microtasks.self w) = false ->
  tokenPromise (Microtasks.self w) = Some q ->
  Microtasks.result_of q (Microtasks.settled w) = None ->
  Microtasks.getToken nowMs c w
  = {| Microtasks.base :=
         {| self := Microtasks.self w; wire := wire (Microtasks.base w);
            inflight := inflight (Microtasks.base w);
            reactions := reactions (Microtasks.base w) ++ [(q, Adopt c)];
            outcomes := outcomes (Microtasks.base w) |};
       Microtasks.settled := Microtasks.settled w;
       Microtasks.jobs := Microtasks.jobs w |}.
Proof.
  intros Hv Hs Hr. unfold Microtasks.getToken, Microtasks.self in *.
  rewrite Hv, Hs, Hr.
  unfold Microtasks.lift. now rewrite (ProviderFacts.getToken_joins _ _ _ q Hv Hs).
Qed.

(** A call that finds no valid credential and, in the slot, a promise
    that has settled: it starts nothing and queues for that result. *)
Lemma getToken_joins_settled nowMs c (w : Microtasks.World) q result :
  hasValidToken nowMs (Microtasks.self w) = false ->
  tokenPromise (Microtasks.self w) = Some q ->
  Microtasks.result_of q (Microtasks.settled w) = Some result ->
  Microtasks.getToken nowMs c w
  = {| Microtasks.base := Microtasks.base w;
       Microtasks.settled := Microtasks.settled w;
       Microtasks.jobs := Microtasks.jobs w ++ [(Adopt c, result)] |}.
Proof.
  intros Hv Hs Hr. unfold Microtasks.getToken, Microtasks.self in *.
  now rewrite Hv, Hs, Hr.
Qed.

Lemma getTokens_join_pending (q : nat) :
  forall (calls : list (Z * Caller)) (w : Microtasks.World),
    tokenPromise (Microtasks.self w) = Some q ->
    Microtasks.result_of q (Microtasks.settled w) = None ->
    Forall (fun call => hasValidToken (fst call) (Microtasks.self w) = false) calls ->
    Microtasks.getTokens calls w
    = {| Microtasks.base :=
           {| self := Microtasks.self w; wire := wire (Microtasks.base w);
              inflight := inflight (Microtasks.base w);
              reactions := reactions (Microtasks.base w)
                           ++ map (fun call => (q, Adopt (snd call))) calls;
              outcomes := outcomes (Microtasks.base w) |};
         Microtasks.settled := Microtasks.settled w;
         Microtasks.jobs := Microtasks.jobs w |}.
Proof.
  induction calls as [|call calls IH]; intros w Hs Hr Hv.
  - cbn. rewrite app_nil_r. destruct w as [[? ? ? ? ?] ? ?]; reflexivity.
  - inversion Hv as [|? ? Hcall Hrest]; subst.
    unfold Microtasks.getTokens. cbn [fold_left].
    rewrite (getToken_joins_pending _ _ _ q Hcall Hs Hr).
    change (fold_left _ calls ?x) with (Microtasks.getTokens calls x).
    rewrite IH; cbn; auto.
    rewrite <- app_assoc. reflexivity.
Qed.

(** The answer to the pending acquisition: the cache is written, the
    promise is settled, its reactions are queued behind the jobs already
    there, and the slot is as it was. *)
Lemma resolve_acquiring nowMs q posted (w : Microtasks.World) c joiners :
  inflight (Microtasks.base w) = [q] ->
  reactions (Microtasks.base w)
  = (q, Resume c) :: map (fun j => (q, Adopt j)) joiners ->
  Microtasks.resolve nowMs q posted w
  = {| Microtasks.base :=
         {| self := fst (acquireToken_resume nowMs posted (Microtasks.self w));
            wire := wire (Microtasks.base w); inflight := []; reactions := [];
            outcomes := outcomes (Microtasks.base w) |};
       Microtasks.settled :=
         (q, snd (acquireToken_resume nowMs posted (Microtasks.self w)))
           :: Microtasks.settled w;
       Microtasks.jobs :=
         Microtasks.jobs w
         ++ (Resume c, snd (acquireToken_resume nowMs posted (Microtasks.self w)))
            :: map (fun j => (Adopt j,
                              snd (acquireToken_resume nowMs posted (Microtasks.self w))))
                   joiners |}.
Proof.
  intros Hin Hre. unfold Microtasks.resolve, Microtasks.self.
  rewrite Hin, Hre. cbn [existsb]. rewrite Nat.eqb_refl. cbn [orb].
  destruct (acquireToken_resume nowMs posted (self (Microtasks.base w)))
    as [p result].
  pose proof (filter_all_wait q (Resume c :: map Adopt joiners)) as [F1 F2].
  cbn [map] in F1, F2. rewrite map_map in F1, F2.
  rewrite F1, F2. cbn [filter]. rewrite Nat.eqb_refl. cbn [negb fst snd map].
  now rewrite map_map.
Qed.


(** *** At most one acquisition, whatever runs between the jobs *)

Lemma adopt_jobs (result : Settled JsVal) (cs : list Caller) :
  forallb Microtasks.is_adopt (map (fun j => (Adopt j, result)) cs) = true.
Proof. induction cs as [|c cs IH]; [reflexivity | exact IH]. Qed.

(** [single_flight] reads the slot, the pending promises, the waiting
    reactions, the settled promises, the queue and the number of
    exchanges, and nothing else. *)
Lemma shape_depends_on (w w' : Microtasks.World) :
  tokenPromise (Microtasks.self w') = tokenPromise (Microtasks.self w) ->
  inflight (Microtasks.base w') = inflight (Microtasks.base w) ->
  reactions (Microtasks.base w') = reactions (Microtasks.base w) ->
  wire (Microtasks.base w') = wire (Microtasks.base w) ->
  Microtasks.settled w' = Microtasks.settled w ->
  Microtasks.jobs w' = Microtasks.jobs w ->
  Microtasks.single_flight w -> Microtasks.single_flight w'.
Proof.
  intros Hs Hi Hr Hw Hd Hj.
  unfold Microtasks.single_flight, Microtasks.known, Microtasks.idle,
    Microtasks.acquiring, Microtasks.finishing, Microtasks.exchanges, exchanges.
  now rewrite Hs, Hi, Hr, Hw, Hd, Hj.
Qed.

Lemma start_is_idle (cfg : UPSAuthConfig) :
  Microtasks.single_flight (Microtasks.start cfg).
Proof. split; [constructor|]. left. repeat split. Qed.

Lemma clearToken_keeps_shape (w : Microtasks.World) :
  Microtasks.single_flight w -> Microtasks.single_flight (Microtasks.clearToken w).
Proof. apply shape_depends_on; reflexivity. Qed.

Lemma known_grows (w w' : Microtasks.World) :
  Microtasks.settled w' = Microtasks.settled w ->
  (Microtasks.exchanges w <= Microtasks.exchanges w')%nat ->
  Microtasks.known w -> Microtasks.known w'.
Proof.
  unfold Microtasks.known. intros -> Hle Hk.
  eapply Forall_impl; [|exact Hk]. cbn. intros x Hx. lia.
Qed.

Lemma getToken_keeps_shape nowMs c (w : Microtasks.World) :
  Microtasks.single_flight w ->
  Microtasks.single_flight (Microtasks.getToken nowMs c w).
Proof.
  intros Hsf.
  destruct (hasValidToken nowMs (Microtasks.self w)) eqn:Hv.
  { destruct (getToken_serves_cache nowMs c w Hv) as (t & _ & ->).
    revert Hsf. apply shape_depends_on; reflexivity. }
  destruct Hsf as [Hk [Hidle | [[q Hacq] | [q Hfin]]]].
  - destruct Hidle as (Hs & Hi & Hr & Hj).
    rewrite (getToken_starts_exchange nowMs c w Hv Hs).
    split.
    + apply (known_grows w); [reflexivity| |exact Hk].
      unfold Microtasks.exchanges, exchanges. cbn. rewrite length_app. lia.
    + right. left. exists (Microtasks.exchanges w).
      unfold Microtasks.acquiring, Microtasks.self, Microtasks.exchanges, exchanges.
      cbn. rewrite Hi, Hr. cbn.
      split; [reflexivity|]. split; [reflexivity|].
      split; [exists c, []; reflexivity|].
      split; [apply (result_of_fresh (Microtasks.exchanges w)); [exact Hk|reflexivity]|].
      split; [rewrite length_app; cbn; lia | exact Hj].
  - destruct Hacq as (Hs & Hi & (c0 & joiners & Hr) & Hn & Hq & Hj).
    rewrite (getToken_joins_pending nowMs c w q Hv Hs Hn).
    split; [exact Hk|]. right. left. exists q.
    unfold Microtasks.acquiring, Microtasks.self, Microtasks.exchanges. cbn.
    split; [exact Hs|]. split; [exact Hi|].
    split; [exists c0, (joiners ++ [c])%list; rewrite Hr, map_app; reflexivity|].
    split; [exact Hn|]. split; [exact Hq | exact Hj].
  - destruct Hfin as (Hs & Hi & Hr & result & c0 & before & after & Hres & Hj & Hb & Ha).
    rewrite (getToken_joins_settled nowMs c w q result Hv Hs Hres).
    split; [exact Hk|]. right. right. exists q.
    unfold Microtasks.finishing, Microtasks.self. cbn.
    split; [exact Hs|]. split; [exact Hi|]. split; [exact Hr|].
    exists result, c0, before, (after ++ [(Adopt c, result)])%list.
    split; [exact Hres|]. split; [rewrite Hj, <- app_assoc; reflexivity|].
    split; [exact Hb|]. rewrite forallb_app, Ha. reflexivity.
Qed.

Lemma resolve_keeps_shape nowMs q posted (w : Microtasks.World) :
  Microtasks.single_flight w ->
  Microtasks.single_flight (Microtasks.resolve nowMs q posted w).
Proof.
  intros Hsf.
  destruct (existsb (Nat.eqb q) (inflight (Microtasks.base w))) eqn:Hin;
    [|unfold Microtasks.resolve; now rewrite Hin].
  destruct Hsf as [Hk [Hidle | [[q' Hacq] | [q' Hfin]]]].
  - destruct Hidle as (_ & Hi & _). rewrite Hi in Hin. discriminate.
  - destruct Hacq as (Hs & Hi & (c0 & joiners & Hr) & Hn & Hq & Hj).
    rewrite Hi in Hin. cbn in Hin. rewrite orb_false_r in Hin.
    apply Nat.eqb_eq in Hin. subst q'.
    rewrite (resolve_acquiring nowMs q posted w c0 joiners Hi Hr).
    split.
    + unfold Microtasks.known. cbn [Microtasks.settled].
      constructor; [exact Hq | exact Hk].
    + right. right. exists q.
      unfold Microtasks.finishing, Microtasks.self. cbn.
      split; [rewrite tokenPromise_resume; exact Hs|].
      split; [reflexivity|]. split; [reflexivity|].
      eexists _, c0, (Microtasks.jobs w), _.
      split; [now rewrite Nat.eqb_refl|]. split; [reflexivity|].
      split; [exact Hj | apply adopt_jobs].
  - destruct Hfin as (_ & Hi & _). rewrite Hi in Hin. discriminate.
Qed.

Lemma tick_keeps_shape (w : Microtasks.World) :
  Microtasks.single_flight w -> Microtasks.single_flight (Microtasks.tick w).
Proof.
  intros Hsf. unfold Microtasks.tick.
  destruct (Microtasks.jobs w) as [|[reaction result] rest] eqn:Hjobs; [exact Hsf|].
  destruct Hsf as [Hk [Hidle | [[q Hacq] | [q Hfin]]]].
  - destruct Hidle as (Hs & Hi & Hr & Hj). rewrite Hjobs in Hj.
    cbn in Hj. destruct reaction as [c|c]; [discriminate|].
    split; [exact Hk|]. left. repeat split; assumption.
  - destruct Hacq as (Hs & Hi & Hr & Hn & Hq & Hj). rewrite Hjobs in Hj.
    cbn in Hj. destruct reaction as [c|c]; [discriminate|].
    split; [exact Hk|]. right. left. exists q. repeat split; assumption.
  - destruct Hfin as (Hs & Hi & Hr & result' & c0 & before & after & Hres & Hj & Hb & Ha).
    rewrite Hjobs in Hj.
    destruct before as [|job before].
    + cbn in Hj. injection Hj as -> -> ->.
      split; [exact Hk|]. left. repeat split; assumption.
    + cbn in Hj. injection Hj as <- ->. cbn in Hb.
      apply andb_prop in Hb as [Hjob Hb].
      destruct reaction as [c|c]; [discriminate|].
      split; [exact Hk|]. right. right. exists q.
      split; [exact Hs|]. split; [exact Hi|]. split; [exact Hr|].
      exists result', c0, before, after. repeat split; assumption.
Qed.

Lemma step_keeps_shape (w : Microtasks.World) (op : Microtasks.Op) :
  Microtasks.single_flight w -> Microtasks.single_flight (Microtasks.step w op).
Proof.
  intros Hsf. destruct op as [nowMs c|nowMs c| |nowMs q posted|]; cbn [Microtasks.step].
  - now apply getToken_keeps_shape.
  - unfold Microtasks.refreshToken.
    now apply getToken_keeps_shape, clearToken_keeps_shape.
  - now apply clearToken_keeps_shape.
  - now apply resolve_keeps_shape.
  - now apply tick_keeps_shape.
Qed.

Lemma steps_keep_shape (ops : list Microtasks.Op) :
  forall w, Microtasks.single_flight w ->
            Microtasks.single_flight (Microtasks.steps ops w).
Proof.
  induction ops as [|op ops IH]; intros w Hsf; [exact Hsf|].
  unfold Microtasks.steps. cbn [fold_left]. apply IH. now apply step_keeps_shape.
Qed.

(** *** Who is answered and who waits *)

Lemma count_partition {A : Type} (f : A -> bool) (g : A -> Caller) (c : Caller) :
  forall l : list A,
    (count_occ Nat.eq_dec (map g (filter f l)) c
     + count_occ Nat.eq_dec (map g (filter (fun x => negb (f x)) l)) c)%nat
    = count_occ Nat.eq_dec (map g l) c.
Proof.
  induction l as [|x l IH]; [reflexivity|].
  cbn [filter map]. destruct (f x); cbn [negb map count_occ];
    destruct (Nat.eq_dec (g x) c); lia.
Qed.

Lemma react_answers (result : Settled JsVal) (r : Reaction) (b : World) :
  outcomes (react result r b) = (outcomes b ++ [(Microtasks.waiter r, result)])%list
  /\ reactions (react result r b) = reactions b
  /\ wire (react result r b) = wire b.
Proof. destruct r; repeat split. Qed.

(** One step: the caller of a call is answered or waits once more, and
    nobody else's count changes; an answer or a job moves a caller from
    waiting to answered. *)
Lemma step_accounts (w : Microtasks.World) (op : Microtasks.Op) (c : Caller) :
  (count_occ Nat.eq_dec (Microtasks.answered (Microtasks.step w op)) c
   + count_occ Nat.eq_dec (Microtasks.waiting (Microtasks.step w op)) c)%nat
  = (count_occ Nat.eq_dec (Microtasks.answered w) c
     + count_occ Nat.eq_dec (Microtasks.waiting w) c
     + count_occ Nat.eq_dec (Microtasks.callers [op]) c)%nat.
Proof.
  assert (Hcall : forall nowMs c0 w0,
            (count_occ Nat.eq_dec (Microtasks.answered (Microtasks.getToken nowMs c0 w0)) c
             + count_occ Nat.eq_dec (Microtasks.waiting (Microtasks.getToken nowMs c0 w0)) c)%nat
            = (count_occ Nat.eq_dec (Microtasks.answered w0) c
               + count_occ Nat.eq_dec (Microtasks.waiting w0) c
               + count_occ Nat.eq_dec [c0] c)%nat).
  { intros nowMs c0 w0.
    unfold Microtasks.getToken, Microtasks.lift, getToken, Microtasks.answered,
      Microtasks.waiting, Microtasks.outcomes.
    destruct (hasValidToken nowMs (self (Microtasks.base w0)));
      [destruct (cachedToken (self (Microtasks.base w0)))
      |destruct (tokenPromise (self (Microtasks.base w0))) as [q|];
       [destruct (Microtasks.result_of q (Microtasks.settled w0))|]];
      cbn [Microtasks.base Microtasks.jobs deliver outcomes reactions];
      rewrite ?map_app, ?count_occ_app; cbn [map fst snd Microtasks.waiter count_occ];
      destruct (Nat.eq_dec c0 c); unfold Caller in *; lia. }
  destruct op as [nowMs c0|nowMs c0| |nowMs q posted|];
    cbn [Microtasks.step Microtasks.callers flat_map app].
  - apply Hcall.
  - unfold Microtasks.refreshToken. rewrite Hcall. reflexivity.
  - change (Microtasks.answered (Microtasks.clearToken w)) with (Microtasks.answered w).
    change (Microtasks.waiting (Microtasks.clearToken w)) with (Microtasks.waiting w).
    cbn [count_occ]. lia.
  - unfold Microtasks.resolve.
    destruct (existsb (Nat.eqb q) (inflight (Microtasks.base w))); [|cbn [count_occ]; lia].
    destruct (acquireToken_resume nowMs posted (self (Microtasks.base w))) as [p result].
    unfold Microtasks.answered, Microtasks.waiting, Microtasks.outcomes.
    cbn [Microtasks.base Microtasks.jobs outcomes reactions].
    rewrite map_app, map_map, !count_occ_app. cbn [fst snd count_occ].
    pose proof (count_partition (waits_on q) (fun x => Microtasks.waiter (snd x)) c
                  (reactions (Microtasks.base w))).
    unfold Caller in *. lia.
  - unfold Microtasks.tick.
    destruct (Microtasks.jobs w) as [|[reaction result] rest] eqn:Hjobs; [cbn [count_occ]; lia|].
    unfold Microtasks.answered, Microtasks.waiting, Microtasks.outcomes.
    cbn [Microtasks.base Microtasks.jobs]. rewrite Hjobs.
    destruct (react_answers result reaction (Microtasks.base w)) as (-> & -> & _).
    rewrite map_app, !count_occ_app. cbn [map fst snd count_occ].
    destruct (Nat.eq_dec (Microtasks.waiter reaction) c); unfold Caller in *; lia.
Qed.

(** One step issues at most one exchange, and only if it is a call. *)
Lemma step_exchanges (w : Microtasks.World) (op : Microtasks.Op) :
  (Microtasks.exchanges w <= Microtasks.exchanges (Microtasks.step w op)
   <= Microtasks.exchanges w + List.length (Microtasks.callers [op]))%nat.
Proof.
  assert (Hcall : forall nowMs c0 w0,
            (Microtasks.exchanges w0
             <= Microtasks.exchanges (Microtasks.getToken nowMs c0 w0)
             <= S (Microtasks.exchanges w0))%nat).
  { intros nowMs c0 w0.
    unfold Microtasks.getToken, Microtasks.lift, getToken, Microtasks.exchanges, exchanges.
    destruct (hasValidToken nowMs (self (Microtasks.base w0)));
      [destruct (cachedToken (self (Microtasks.base w0)))
      |destruct (tokenPromise (self (Microtasks.base w0))) as [q|];
       [destruct (Microtasks.result_of q (Microtasks.settled w0))|]];
      cbn [Microtasks.base deliver wire]; rewrite ?length_app; cbn [List.length]; lia. }
  destruct op as [nowMs c0|nowMs c0| |nowMs q posted|];
    cbn [Microtasks.step Microtasks.callers flat_map app List.length].
  - pose proof (Hcall nowMs c0 w). lia.
  - pose proof (Hcall nowMs c0 (Microtasks.clearToken w)) as H.
    unfold Microtasks.refreshToken.
    change (Microtasks.exchanges (Microtasks.clearToken w))
      with (Microtasks.exchanges w) in H. lia.
  - change (Microtasks.exchanges (Microtasks.clearToken w))
      with (Microtasks.exchanges w). lia.
  - unfold Microtasks.resolve.
    destruct (existsb (Nat.eqb q) (inflight (Microtasks.base w))); [|lia].
    destruct (acquireToken_resume nowMs posted (self (Microtasks.base w))) as [p result].
    unfold Microtasks.exchanges, exchanges. cbn. lia.
  - unfold Microtasks.tick.
    destruct (Microtasks.jobs w) as [|[reaction result] rest]; [lia|].
    unfold Microtasks.exchanges, exchanges. cbn [Microtasks.base].
    destruct (react_answers result reaction (Microtasks.base w)) as (_ & _ & ->). lia.
Qed.

(** An answer given is never taken back or changed. *)
Lemma step_keeps_outcomes (w : Microtasks.World) (op : Microtasks.Op) :
  exists more,
    Microtasks.outcomes (Microtasks.step w op) = (Microtasks.outcomes w ++ more)%list.
Proof.
  assert (Hcall : forall nowMs c0 w0, exists more,
            Microtasks.outcomes (Microtasks.getToken nowMs c0 w0)
            = (Microtasks.outcomes w0 ++ more)%list).
  { intros nowMs c0 w0.
    unfold Microtasks.getToken, Microtasks.lift, getToken, Microtasks.outcomes.
    destruct (hasValidToken nowMs (self (Microtasks.base w0)));
      [destruct (cachedToken (self (Microtasks.base w0)))
      |destruct (tokenPromise (self (Microtasks.base w0))) as [q|];
       [destruct (Microtasks.result_of q (Microtasks.settled w0))|]];
      cbn [Microtasks.base deliver outcomes];
      solve [eexists; reflexivity | exists []; now rewrite app_nil_r]. }
  destruct op as [nowMs c0|nowMs c0| |nowMs q posted|]; cbn [Microtasks.step].
  - apply Hcall.
  - apply (Hcall nowMs c0 (Microtasks.clearToken w)).
  - exists []. now rewrite app_nil_r.
  - exists []. rewrite app_nil_r. unfold Microtasks.resolve.
    destruct (existsb (Nat.eqb q) (inflight (Microtasks.base w))); [|reflexivity].
    now destruct (acquireToken_resume nowMs posted (self (Microtasks.base w))).
  - unfold Microtasks.tick.
    destruct (Microtasks.jobs w) as [|[reaction result] rest];
      [exists []; now rewrite app_nil_r|].
    unfold Microtasks.outcomes. cbn [Microtasks.base].
    destruct (react_answers result reaction (Microtasks.base w)) as (-> & _).
    eexists; reflexivity.
Qed.

Lemma callers_cons (op : Microtasks.Op) (ops : list Microtasks.Op) :
  Microtasks.callers (op :: ops)
  = (Microtasks.callers [op] ++ Microtasks.callers ops)%list.
Proof. unfold Microtasks.callers. cbn [flat_map]. now rewrite app_nil_r. Qed.

(** *** A batch of calls on an empty slot *)

Lemma empty_slot_idle (w : Microtasks.World) :
  Microtasks.single_flight w -> tokenPromise (Microtasks.self w) = None ->
  Microtasks.known w /\ Microtasks.idle w.
Proof.
  intros [Hk [Hidle | [[q Hacq] | [q Hfin]]]] Hslot.
  - now split.
  - destruct Hacq as (Hs & _). rewrite Hs in Hslot. discriminate.
  - destruct Hfin as (Hs & _). rewrite Hs in Hslot. discriminate.
Qed.

Lemma getTokens_from_idle (w : Microtasks.World) (first : Z * Caller)
      (others : list (Z * Caller)) :
  Microtasks.known w -> Microtasks.idle w ->
  Forall (fun call => hasValidToken (fst call) (Microtasks.self w) = false)
         (first :: others) ->
  Microtasks.getTokens (first :: others) w
  = {| Microtasks.base :=
         {| self := set_tokenPromise (Microtasks.self w) (Some (Microtasks.exchanges w));
            wire := wire (Microtasks.base w)
                    ++ [acquireToken_request (Microtasks.self w)];
            inflight := [Microtasks.exchanges w];
            reactions :=
              (Microtasks.exchanges w, Resume (snd first))
                :: map (fun call => (Microtasks.exchanges w, Adopt (snd call))) others;
            outcomes := outcomes (Microtasks.base w) |};
       Microtasks.settled := Microtasks.settled w;
       Microtasks.jobs := Microtasks.jobs w |}.
Proof.
  intros Hk (Hs & Hi & Hr & _) Hstale.
  inversion Hstale as [|? ? Hfirst Hothers]; subst.
  unfold Microtasks.getTokens. cbn [fold_left].
  rewrite (getToken_starts_exchange _ _ _ Hfirst Hs).
  change (fold_left _ others ?x) with (Microtasks.getTokens others x).
  rewrite (getTokens_join_pending (Microtasks.exchanges w)).
  - cbn. now rewrite Hi, Hr.
  - reflexivity.
  - cbn. apply (result_of_fresh (Microtasks.exchanges w)); [exact Hk | reflexivity].
  - exact Hothers.
Qed.

(** The job of the call that started the acquisition: its [finally]
    empties the slot, and the call ends with the result. *)
Lemma tick_resume (b : World) settled result c rest :
  Microtasks.tick {| Microtasks.base := b; Microtasks.settled := settled;
                     Microtasks.jobs := (Resume c, result) :: rest |}
  = {| Microtasks.base :=
         {| self := set_tokenPromise (self b) None; wire := wire b;
            inflight := inflight b; reactions := reactions b;
            outcomes := outcomes b ++ [(c, result)] |};
       Microtasks.settled := settled; Microtasks.jobs := rest |}.
Proof. reflexivity. Qed.

(** A call that finds the slot empty and no valid credential starts one
    exchange, on a promise of its own. *)
Lemma getToken_fresh nowMs c (w : Microtasks.World) :
  tokenPromise (Microtasks.self w) = None ->
  hasValidToken nowMs (Microtasks.self w) = false ->
  Microtasks.exchanges (Microtasks.getToken nowMs c w) = S (Microtasks.exchanges w)
  /\ tokenPromise (Microtasks.self (Microtasks.getToken nowMs c w))
     = Some (Microtasks.exchanges w).
Proof.
  intros Hs Hv. rewrite (getToken_starts_exchange nowMs c w Hv Hs).
  split; [|reflexivity].
  unfold Microtasks.exchanges, exchanges. cbn [Microtasks.base wire].
  rewrite length_app. cbn [List.length]. lia.
Qed.

End MicrotaskFacts.

(* ================================================================== *)
(** ** What the specification states about the provider *)
(* ================================================================== *)

Import UPSAuth Scheduler Demo.

(** C6.  For every cached credential [t], [hasValidToken] is true
    exactly when [now < expiresAt - 300], and [getTimeUntilExpiry] is
    [max 0 (expiresAt - now)], with [now] the clock in whole seconds.
    For a credential of lifetime 600 acquired at second [T] (so that
    [expiresAt = T + 600]) this makes [hasValidToken] true on
    [T, T+300), false from [T+300] on, and [getTimeUntilExpiry] equal to
    [600 - (now - T)] cut off at 0. *)
Theorem C6_buffer_correctness (nowMs : Z) (p : Provider) (t : AuthToken)
        (Hcached : cachedToken p = Some t) :
  let now := seconds nowMs in
  (hasValidToken nowMs p = true <-> now < expiresAt t - 300)
  /\ getTimeUntilExpiry nowMs p = Z.max 0 (expiresAt t - now)
  /\ forall T, expiresIn t = 600 -> expiresAt t = T + expiresIn t ->
       (T <= now < T + 300 -> hasValidToken nowMs p = true)
       /\ (T + 300 <= now -> hasValidToken nowMs p = false)
       /\ getTimeUntilExpiry nowMs p = Z.max 0 (600 - (now - T)).
Proof.
  intros now. unfold hasValidToken, getTimeUntilExpiry, REFRESH_BUFFER_SECONDS.
  rewrite Hcached. fold now. split; [apply Z.ltb_lt|]. split; [reflexivity|].
  intros T H600 Hat. rewrite Hat, H600. repeat split.
  - intros Hin. apply Z.ltb_lt. lia.
  - intros Hout. apply Z.ltb_ge. lia.
  - f_equal. lia.
Qed.

(** The credential cached at clock [1000000] ms from a response with
    [expires_in = 600], looked at 299 seconds later. *)
Lemma C6_buffer_correctness_witness :
  let p := fst (acquireToken_resume 1000000 (Fulfilled (Some (token_response "t" 600)))
                                    (UPSAuth.new demo_config)) in
  cachedToken p
  = Some {| accessToken := JStr "t"; tokenType := JStr "Bearer";
            expiresIn := 600; expiresAt := 1600 |}
  /\ hasValidToken 1299000 p = true
  /\ getTimeUntilExpiry 1299000 p = 301.
Proof.
  intros p.
  pose proof (C6_buffer_correctness 1299000 p _ eq_refl) as (_ & Hleft & Hcase).
  destruct (Hcase 1000 eq_refl eq_refl) as (Hin & _ & _).
  split; [reflexivity|]. split; [apply Hin; cbv; split; congruence | exact Hleft].
Defined.



(** C8.  A token exchange rejected with HTTP status 429 makes the
    acquisition fail with an error of kind Auth (code [AUTH_ERROR], not a
    RateLimit error) whose message is ['Authentication rate limited by
    UPS'], whether or not axios recognises the rejection as its own. *)
Theorem C8_token_endpoint_429_is_Auth (error : JsVal)
        (H429 : getq (getq error "response") "status" = JNum 429) :
  acquireToken_catch error
  = JCarrierError CarrierAuthError "Authentication rate limited by UPS"
                  (JStr "AUTH_ERROR") (JStr "UPS")
                  (getq (getq error "response") "data") JUndefined
  /\ kind (acquireToken_catch error) <> Some CarrierRateLimitError
  /\ forall nowMs p,
       acquireToken_resume nowMs (Rejected error) p
       = (set_cachedToken p None, Rejected (acquireToken_catch error)).
Proof.
  assert (Heq : acquireToken_catch error
                = JCarrierError CarrierAuthError "Authentication rate limited by UPS"
                                (JStr "AUTH_ERROR") (JStr "UPS")
                                (getq (getq error "response") "data") JUndefined).
  { destruct (ProviderFacts.status_is_number_shape error 429 H429) as (Ht & Ho & Hp).
    unfold acquireToken_catch. rewrite H429, Ht, Ho, Hp. cbn.
    destruct (isAxiosError error); reflexivity. }
  split; [exact Heq|]. split; [rewrite Heq; discriminate | reflexivity].
Qed.

(** The axios error of a 429 from the token endpoint. *)
Lemma C8_token_endpoint_429_is_Auth_witness :
  let error := AxiosError "Request failed with status code 429"
                          (JStr "ERR_BAD_REQUEST")
                          (Response 429 (JStr "slow down") []) in
  getq (getq error "response") "status" = JNum 429
  /\ kind (acquireToken_catch error) = Some CarrierAuthError
  /\ Errors.message (acquireToken_catch error)
     = JStr "Authentication rate limited by UPS".
Proof.
  intros error. split; [reflexivity|].
  destruct (C8_token_endpoint_429_is_Auth error eq_refl) as (-> & _).
  split; reflexivity.
Defined.

(** C1 (as amended).  Take a world at most one acquisition can be
    pending in, with the slot empty and no job queued, and [n >= 1]
    calls of [getToken] (the first and the others), each made while no
    valid credential is cached.  Together they issue exactly one token
    exchange.  However that exchange is answered:
    - once every job has run, every one of the calls has ended with the
      same result, the token or the error of the one acquisition, no
      further exchange has been issued, and the slot is empty;
    - the slot is emptied by the first job, the [finally] of the call
      that started the acquisition: from then on a call that finds no
      valid credential starts a fresh exchange, on a fresh promise;
    - between the settlement and that job the slot still holds the
      settled promise: a call made then that finds no valid credential
      starts no exchange and ends, after the calls of the batch, with
      the same result. *)
Theorem C1_single_flight (w : Microtasks.World) (first : Z * Caller)
        (others : list (Z * Caller))
        (Hsf : Microtasks.single_flight w)
        (Hslot : tokenPromise (Microtasks.self w) = None)
        (Hquiet : Microtasks.jobs w = [])
        (Hstale : Forall (fun call =>
                            hasValidToken (fst call) (Microtasks.self w) = false)
                         (first :: others)) :
  let calls := first :: others in
  let w1 := Microtasks.getTokens calls w in
  let q := Microtasks.exchanges w in
  Microtasks.exchanges w1 = S (Microtasks.exchanges w)
  /\ tokenPromise (Microtasks.self w1) = Some q
  /\ forall nowMs posted,
       let w2 := Microtasks.resolve nowMs q posted w1 in
       let result := snd (acquireToken_resume nowMs posted (Microtasks.self w1)) in
       let w3 := Microtasks.tick w2 in
       let w4 := Microtasks.drain w2 in
       Microtasks.exchanges w2 = S (Microtasks.exchanges w)
       /\ tokenPromise (Microtasks.self w2) = Some q
       /\ Microtasks.outcomes w2 = Microtasks.outcomes w
       /\ (forall midMs c,
              hasValidToken midMs (Microtasks.self w2) = false ->
              Microtasks.exchanges (Microtasks.getToken midMs c w2)
              = S (Microtasks.exchanges w)
              /\ Microtasks.outcomes (Microtasks.drain (Microtasks.getToken midMs c w2))
                 = (Microtasks.outcomes w
                      ++ map (fun call => (snd call, result)) calls
                      ++ [(c, result)])%list)
       /\ tokenPromise (Microtasks.self w3) = None
       /\ Microtasks.outcomes w3
          = (Microtasks.outcomes w ++ [(snd first, result)])%list
       /\ (forall laterMs c,
              hasValidToken laterMs (Microtasks.self w3) = false ->
              Microtasks.exchanges (Microtasks.getToken laterMs c w3)
              = S (S (Microtasks.exchanges w))
              /\ tokenPromise (Microtasks.self (Microtasks.getToken laterMs c w3))
                 = Some (S (Microtasks.exchanges w)))
       /\ Microtasks.exchanges w4 = S (Microtasks.exchanges w)
       /\ Microtasks.outcomes w4
          = (Microtasks.outcomes w ++ map (fun call => (snd call, result)) calls)%list
       /\ tokenPromise (Microtasks.self w4) = None
       /\ inflight (Microtasks.base w4) = []
       /\ (forall laterMs c,
              hasValidToken laterMs (Microtasks.self w4) = false ->
              Microtasks.exchanges (Microtasks.getToken laterMs c w4)
              = S (S (Microtasks.exchanges w))
              /\ tokenPromise (Microtasks.self (Microtasks.getToken laterMs c w4))
                 = Some (S (Microtasks.exchanges w))).
Proof.
  intros calls w1 q.
  destruct (MicrotaskFacts.empty_slot_idle w Hsf Hslot) as [Hk Hidle].
  pose proof (MicrotaskFacts.getTokens_from_idle w first others Hk Hidle Hstale) as Hw1.
  fold calls in Hw1. fold w1 in Hw1. fold q in Hw1. rewrite Hquiet in Hw1.
  assert (Hx1 : Microtasks.exchanges w1 = S (Microtasks.exchanges w)).
  { rewrite Hw1. unfold Microtasks.exchanges, exchanges. cbn [Microtasks.base wire].
    rewrite length_app. cbn. lia. }
  split; [exact Hx1|]. split; [rewrite Hw1; reflexivity|].
  intros nowMs posted w2 result w3 w4.
  assert (Hw2 : w2 = Microtasks.resolve nowMs q posted w1) by reflexivity.
  rewrite (MicrotaskFacts.resolve_acquiring nowMs q posted w1 (snd first)
             (map snd others)) in Hw2;
    [|rewrite Hw1; reflexivity
     |rewrite Hw1; cbn [Microtasks.base reactions]; now rewrite map_map].
  fold result in Hw2.
  assert (Hj1 : Microtasks.jobs w1 = []) by (rewrite Hw1; reflexivity).
  assert (Ho1 : outcomes (Microtasks.base w1) = Microtasks.outcomes w)
    by (rewrite Hw1; reflexivity).
  rewrite Hj1, Ho1 in Hw2. cbn [app] in Hw2.
  assert (Hs2 : tokenPromise (Microtasks.self w2) = Some q).
  { rewrite Hw2. unfold Microtasks.self. cbn [Microtasks.base self].
    rewrite MicrotaskFacts.tokenPromise_resume. rewrite Hw1. reflexivity. }
  assert (Hx2 : Microtasks.exchanges w2 = S (Microtasks.exchanges w))
    by (rewrite <- Hx1, Hw2; reflexivity).
  assert (Hfresh : forall (x : Microtasks.World) laterMs c,
             tokenPromise (Microtasks.self x) = None ->
             Microtasks.exchanges x = S (Microtasks.exchanges w) ->
             hasValidToken laterMs (Microtasks.self x) = false ->
             Microtasks.exchanges (Microtasks.getToken laterMs c x)
             = S (S (Microtasks.exchanges w))
             /\ tokenPromise (Microtasks.self (Microtasks.getToken laterMs c x))
                = Some (S (Microtasks.exchanges w))).
  { intros x laterMs c Hsx Hxx Hvx.
    destruct (MicrotaskFacts.getToken_fresh laterMs c x Hsx Hvx) as [Hx Hs].
    rewrite Hx, Hs, Hxx. split; reflexivity. }
  split; [exact Hx2|]. split; [exact Hs2|].
  split; [rewrite Hw2; reflexivity|].
  split.
  { intros midMs c Hmid.
    rewrite (MicrotaskFacts.getToken_joins_settled midMs c w2 q result Hmid Hs2);
      [|rewrite Hw2; cbn [Microtasks.settled Microtasks.result_of];
        now rewrite Nat.eqb_refl].
    split; [exact Hx2|].
    unfold Microtasks.drain, Microtasks.outcomes at 1.
    cbn [Microtasks.base Microtasks.jobs]. rewrite Hw2 at 1.
    cbn [Microtasks.jobs app].
    replace (map (fun j => (Adopt j, result)) (map snd others) ++ [(Adopt c, result)])%list
      with (map (fun j => (Adopt j, result)) (map snd others ++ [c])%list)
      by (now rewrite map_app).
    rewrite MicrotaskFacts.run_resume_adopts. cbn [outcomes].
    rewrite Hw2. cbn [Microtasks.base outcomes]. subst calls.
    cbn [map]. rewrite map_app, map_map. cbn [map app]. reflexivity. }
  assert (Hw3 : w3 = Microtasks.tick w2) by reflexivity.
  rewrite Hw2, MicrotaskFacts.tick_resume in Hw3. cbn [self wire outcomes] in Hw3.
  split; [rewrite Hw3; reflexivity|]. split; [rewrite Hw3; reflexivity|].
  split.
  { intros laterMs c. apply Hfresh; [rewrite Hw3; reflexivity|].
    rewrite <- Hx1, Hw3. reflexivity. }
  assert (Hw4 : w4 = Microtasks.drain w2) by reflexivity.
  unfold Microtasks.drain in Hw4. rewrite Hw2 in Hw4.
  cbn [Microtasks.base Microtasks.jobs Microtasks.settled] in Hw4.
  rewrite MicrotaskFacts.run_resume_adopts in Hw4.
  cbn [self wire inflight reactions outcomes] in Hw4.
  split; [rewrite <- Hx1, Hw4; reflexivity|].
  split; [rewrite Hw4; unfold Microtasks.outcomes; cbn [Microtasks.base outcomes];
          subst calls; cbn [map]; now rewrite map_map|].
  split; [rewrite Hw4; reflexivity|]. split; [rewrite Hw4; reflexivity|].
  intros laterMs c. apply Hfresh; [rewrite Hw4; reflexivity|].
  rewrite <- Hx1, Hw4. reflexivity.
Qed.

(** Three calls on a new provider at clock 1000, 1000 and 1001 ms, the
    exchange answered with a token at 5000 ms. *)
Lemma C1_single_flight_witness :
  let calls := [(1000, 1%nat); (1000, 2%nat); (1001, 3%nat)] in
  let w1 := Microtasks.getTokens calls (Microtasks.start demo_config) in
  let w2 := Microtasks.resolve 5000 0
              (Fulfilled (Some (token_response "abc123" 3600))) w1 in
  Microtasks.single_flight (Microtasks.start demo_config)
  /\ tokenPromise (Microtasks.self (Microtasks.start demo_config)) = None
  /\ Microtasks.jobs (Microtasks.start demo_config) = []
  /\ Forall (fun call =>
               hasValidToken (fst call) (Microtasks.self (Microtasks.start demo_config))
               = false) calls
  /\ Microtasks.exchanges w1 = 1%nat
  /\ Microtasks.outcomes w2 = []
  /\ Microtasks.outcomes (Microtasks.tick w2) = [(1%nat, Fulfilled (JStr "abc123"))]
  /\ Microtasks.outcomes (Microtasks.drain w2)
     = [(1%nat, Fulfilled (JStr "abc123")); (2%nat, Fulfilled (JStr "abc123"));
        (3%nat, Fulfilled (JStr "abc123"))].
Proof.
  intros calls w1 w2.
  assert (Hsf : Microtasks.single_flight (Microtasks.start demo_config))
    by (split; [constructor | left; repeat split]).
  assert (Hstale : Forall (fun call =>
                     hasValidToken (fst call)
                       (Microtasks.self (Microtasks.start demo_config)) = false) calls)
    by (repeat constructor).
  pose proof (C1_single_flight (Microtasks.start demo_config) (1000, 1%nat)
                [(1000, 2%nat); (1001, 3%nat)] Hsf eq_refl eq_refl Hstale)
    as (Hone & _ & Hsettle).
  destruct (Hsettle 5000 (Fulfilled (Some (token_response "abc123" 3600))))
    as (_ & _ & Hbefore & _ & _ & Hfirst & _ & _ & Hall & _).
  split; [exact Hsf|]. split; [reflexivity|]. split; [reflexivity|].
  split; [exact Hstale|]. split; [exact Hone|].
  split; [exact Hbefore|]. split; [exact Hfirst | exact Hall].
Defined.

(** C1 as stated fails in its last clause.  The exchange of a call on a
    new provider fails at 2000 ms.  The acquisition has settled, and
    until the job of the call that started it has run the slot still
    holds its promise: a second call arriving then finds no valid
    credential and starts no exchange, the count stays at 1, and it ends
    with the error of the settled acquisition. *)
Lemma C1_call_after_settlement_joins_it :
  let posted := Fulfilled (Some tokenless_response) in
  let failure := snd (acquireToken_resume 2000 posted (UPSAuth.new demo_config)) in
  let w2 := Microtasks.resolve 2000 0 posted
              (Microtasks.getToken 1000 1%nat (Microtasks.start demo_config)) in
  let w3 := Microtasks.getToken 2000 2%nat w2 in
  inflight (Microtasks.base w2) = []
  /\ Microtasks.result_of 0 (Microtasks.settled w2) = Some failure
  /\ tokenPromise (Microtasks.self w2) = Some 0%nat
  /\ hasValidToken 2000 (Microtasks.self w2) = false
  /\ Microtasks.exchanges w2 = 1%nat
  /\ Microtasks.exchanges w3 = 1%nat
  /\ Microtasks.exchanges w3 <> S (Microtasks.exchanges w2)
  /\ Microtasks.outcomes (Microtasks.drain w3) = [(1%nat, failure); (2%nat, failure)]
  /\ match failure with
     | Rejected e => kind e = Some CarrierAuthError
     | Fulfilled _ => False
     end.
Proof.
  cbv zeta.
  split; [reflexivity|]. split; [reflexivity|]. split; [reflexivity|].
  split; [reflexivity|]. split; [reflexivity|]. split; [reflexivity|].
  split; [discriminate|]. split; reflexivity.
Qed.

(** C9 (as amended).  [refreshToken] is [clearToken] followed by
    [getToken].  Called when no acquisition is pending (so after a
    [getToken] that has returned), it issues one more token exchange
    whatever is cached; when that exchange is answered with a token, the
    call returns the new token, and from then on [hasValidToken] is true
    exactly while [now < acquisition second + expires_in - 300]: true
    right after the refresh when the new lifetime exceeds 300 seconds. *)
Theorem C9_forced_refresh (w : World) (nowMs : Z) (c : Caller)
        (Hsf : single_flight w)
        (Hslot : tokenPromise (self w) = None) :
  refreshToken nowMs c w = getToken nowMs c (clearToken w)
  /\ cachedToken (self (clearToken w)) = None
  /\ exchanges (refreshToken nowMs c w) = S (exchanges w)
  /\ forall settledMs d,
       truthy (access_token d) = true ->
       let w2 := settle settledMs (exchanges w) (Fulfilled (Some d))
                        (refreshToken nowMs c w) in
       outcomes w2 = (outcomes w ++ [(c, Fulfilled (access_token d))])%list
       /\ exchanges w2 = S (exchanges w)
       /\ (forall laterMs,
              hasValidToken laterMs (self w2) = true
              <-> seconds laterMs < seconds settledMs + expires_in d - 300)
       /\ (300 < expires_in d -> hasValidToken settledMs (self w2) = true).
Proof.
  split; [reflexivity|]. split; [reflexivity|].
  destruct (SingleFlight.empty_slot_at_rest w Hsf Hslot) as (_ & Hi & Hr).
  assert (Hstart : refreshToken nowMs c w
                   = {| self := set_tokenPromise (self (clearToken w)) (Some (exchanges w));
                        wire := wire w ++ [acquireToken_request (self (clearToken w))];
                        inflight := inflight w ++ [exchanges w];
                        reactions := reactions w ++ [(exchanges w, Resume c)];
                        outcomes := outcomes w |}).
  { unfold refreshToken.
    rewrite (ProviderFacts.getToken_starts nowMs c (clearToken w)); auto. }
  assert (Hx : exchanges (refreshToken nowMs c w) = S (exchanges w)).
  { rewrite Hstart. unfold exchanges. cbn [wire]. rewrite length_app. cbn. lia. }
  split; [exact Hx|].
  intros settledMs d Htoken w2.
  assert (Hw2 : w2 = settle settledMs (exchanges w) (Fulfilled (Some d))
                           (refreshToken nowMs c w)) by reflexivity.
  rewrite (ProviderFacts.settle_acquiring _ _ _ _ c []) in Hw2;
    [|rewrite Hstart; cbn; now rewrite Hi | rewrite Hstart; cbn; now rewrite Hr].
  rewrite (ProviderFacts.acquireToken_resume_fulfilled _ _ _ Htoken) in Hw2.
  cbn [fst snd map] in Hw2.
  assert (Hvalid : forall laterMs,
             hasValidToken laterMs (self w2)
             = (seconds laterMs <? seconds settledMs + expires_in d - 300)).
  { intros laterMs. rewrite Hw2. reflexivity. }
  split; [rewrite Hw2; cbn [outcomes]; now rewrite Hstart|].
  split; [rewrite Hw2; unfold exchanges; cbn [wire]; exact Hx|].
  split.
  - intros laterMs. rewrite Hvalid. apply Z.ltb_lt.
  - intros Hlong. rewrite Hvalid. apply Z.ltb_lt. lia.
Qed.

(** A token acquired, then a refresh answered with another token of
    lifetime 3600. *)
Lemma C9_forced_refresh_witness :
  let w := settle 2000 0 (Fulfilled (Some (token_response "abc123" 3600)))
                  (getToken 1000 1%nat (start demo_config)) in
  let w2 := settle 4000 1 (Fulfilled (Some (token_response "refreshed" 3600)))
                   (refreshToken 3000 2%nat w) in
  single_flight w
  /\ tokenPromise (self w) = None
  /\ exchanges w = 1%nat
  /\ exchanges (refreshToken 3000 2%nat w) = 2%nat
  /\ outcomes w2 = [(1%nat, Fulfilled (JStr "abc123"));
                    (2%nat, Fulfilled (JStr "refreshed"))]
  /\ hasValidToken 4000 (self w2) = true.
Proof.
  intros w w2.
  assert (Hsf : single_flight w) by (left; repeat split).
  destruct (C9_forced_refresh w 3000 2%nat Hsf eq_refl) as (_ & _ & Hx & Hsettle).
  destruct (Hsettle 4000 (token_response "refreshed" 3600) eq_refl)
    as (Hout & _ & _ & Hvalid).
  split; [exact Hsf|]. split; [reflexivity|]. split; [reflexivity|].
  split; [exact Hx|]. split; [exact Hout|].
  apply Hvalid. reflexivity.
Defined.

(** C9 as stated fails in its last clause: a refresh answered with a
    token of lifetime 300 returns that token after a second exchange,
    and [hasValidToken] is false right afterwards. *)
Lemma C9_short_lived_refresh_not_valid :
  let w := settle 2000 0 (Fulfilled (Some (token_response "abc123" 3600)))
                  (getToken 1000 1%nat (start demo_config)) in
  let w2 := settle 4000 1 (Fulfilled (Some (token_response "refreshed" 300)))
                   (refreshToken 3000 2%nat w) in
  outcomes w = [(1%nat, Fulfilled (JStr "abc123"))]
  /\ exchanges w2 = 2%nat
  /\ outcomes w2 = [(1%nat, Fulfilled (JStr "abc123"));
                    (2%nat, Fulfilled (JStr "refreshed"))]
  /\ hasValidToken 4000 (self w2) = false.
Proof. cbv zeta. repeat split. Qed.

(* ================================================================== *)
(** ** Further properties of the transport *)
(* ================================================================== *)

Module RetryLoop.
Import Axios HttpClient.

Lemma attempts_backoff (c : t) : forall (n : nat) (k : Z),
    attempts (backoff c k n) = S n.
Proof.
  induction n as [|n IH]; intros k; [reflexivity|].
  cbn [backoff]. unfold attempts in *. cbn. now rewrite IH.
Qed.

Lemma delays_backoff (c : t) : forall (n : nat) (k : Z),
    delays (backoff c k n)
    = map (fun i => retryDelay c * 2 ^ (k + Z.of_nat i)) (seq 0 n).
Proof.
  induction n as [|n IH]; intros k; [reflexivity|].
  cbn [backoff delays flat_map app seq map].
  fold (delays (backoff c (k + 1) n)). rewrite IH.
  rewrite Z.add_0_r. f_equal.
  rewrite <- seq_shift, map_map. apply map_ext. intros i.
  do 2 f_equal. lia.
Qed.

Lemma sum_powers (d : Z) : forall (n : nat),
    fold_right Z.add 0 (map (fun i => d * 2 ^ Z.of_nat i) (seq 0 n))
    = d * (2 ^ Z.of_nat n - 1).
Proof.
  induction n as [|n IH]; [cbn; lia|].
  rewrite seq_S, map_app, fold_right_app. cbn [map fold_right Nat.add].
  assert (Hshift : forall l a,
             fold_right Z.add a l = fold_right Z.add 0 l + a).
  { induction l as [|x l IHl]; intros a; cbn; [lia|]. rewrite IHl. lia. }
  rewrite Hshift, IH, Nat2Z.inj_succ, Z.pow_succ_r by lia. lia.
Qed.

(** The loop, started at retry count [k] with enough fuel: it makes
    [n + 1] attempts for some [n], the first [n] of them rejected with an
    error [shouldRetry] accepts; it returns how the last one settled;
    and it stops at a success, at an error [shouldRetry] refuses, or
    when the retry count has reached [maxRetries]. *)
Lemma requestWithRetry_shape (c : t) (requestFn : Z -> Settled JsVal) :
  forall (fuel : nat) (k : Z),
    (Z.to_nat (maxRetries c - k) < fuel)%nat ->
    exists n : nat,
      requestWithRetry fuel c requestFn k
      = Some (backoff c k n, requestFn (k + Z.of_nat n))
      /\ k + Z.of_nat n <= Z.max k (maxRetries c)
      /\ (forall i, (i < n)%nat ->
                    exists e, requestFn (k + Z.of_nat i) = Rejected e
                              /\ shouldRetry e = true)
      /\ ((exists v, requestFn (k + Z.of_nat n) = Fulfilled v)
          \/ exists e, requestFn (k + Z.of_nat n) = Rejected e
                       /\ (shouldRetry e = false \/ maxRetries c <= k + Z.of_nat n)).
Proof.
  induction fuel as [|fuel IH]; intros k Hfuel; [lia|].
  rewrite TransportFacts.requestWithRetry_step.
  destruct (requestFn k) as [v|error] eqn:Hk.
  - exists 0%nat. cbn [backoff Z.of_nat]. rewrite Z.add_0_r, Hk.
    repeat split; [lia | intros i Hi; lia | left; eauto].
  - destruct (k <? maxRetries c) eqn:Hlt; cbn [andb].
    + apply Z.ltb_lt in Hlt. destruct (shouldRetry error) eqn:Hretry.
      * destruct (IH (k + 1)) as (n & -> & Hle & Hearly & Hstop); [lia|].
        exists (S n). cbn [backoff].
        replace (k + Z.of_nat (S n)) with (k + 1 + Z.of_nat n) by lia.
        repeat split; [lia | | exact Hstop].
        intros [|i] Hi.
        -- cbn [Z.of_nat]. rewrite Z.add_0_r. eauto.
        -- replace (k + Z.of_nat (S i)) with (k + 1 + Z.of_nat i) by lia.
           apply Hearly. lia.
      * exists 0%nat. cbn [backoff Z.of_nat]. rewrite Z.add_0_r, Hk.
        repeat split; [lia | intros i Hi; lia | right; eauto].
    + apply Z.ltb_ge in Hlt.
      exists 0%nat. cbn [backoff Z.of_nat]. rewrite Z.add_0_r, Hk.
      repeat split; [lia | intros i Hi; lia | right; exists error; split; auto].
Qed.

End RetryLoop.

Import HttpClient.

(** Retry ceiling and backoff of [requestWithRetry], for every request
    function: the loop ends; it makes at least one and at most
    [max 0 maxRetries + 1] attempts; the delay slept after attempt [i] is
    [retryDelay * 2^i]; in all it sleeps [retryDelay * (2^(attempts-1) - 1)]
    milliseconds. *)
Theorem retry_ceiling_and_backoff (c : HttpClient.t) (requestFn : Z -> Settled JsVal) :
  exists events result,
    run c requestFn = Some (events, result)
    /\ (1 <= attempts events)%nat
    /\ Z.of_nat (attempts events) <= Z.max 0 (maxRetries c) + 1
    /\ delays events
       = map (fun i => retryDelay c * 2 ^ Z.of_nat i) (seq 0 (attempts events - 1))
    /\ fold_right Z.add 0 (delays events)
       = retryDelay c * (2 ^ Z.of_nat (attempts events - 1) - 1).
Proof.
  destruct (RetryLoop.requestWithRetry_shape c requestFn
              (S (Z.to_nat (maxRetries c))) 0) as (n & Hrun & Hle & _);
    [rewrite Z.sub_0_r; lia|].
  exists (backoff c 0 n), (requestFn (0 + Z.of_nat n)).
  rewrite RetryLoop.attempts_backoff, RetryLoop.delays_backoff.
  replace (S n - 1)%nat with n by lia.
  split; [exact Hrun|]. split; [lia|]. split; [lia|]. split; [reflexivity|].
  cbn [Z.add]. apply (RetryLoop.sum_powers (retryDelay c) n).
Qed.

(** What [requestWithRetry] returns, for every request function: the
    outcome of its last attempt, unchanged.  Every earlier attempt was
    rejected with an error [shouldRetry] accepts, and the last attempt
    is a success, or a rejection that [shouldRetry] refuses, or the
    attempt number [maxRetries] (or more). *)
Theorem retry_returns_last_outcome (c : HttpClient.t) (requestFn : Z -> Settled JsVal) :
  exists events result,
    run c requestFn = Some (events, result)
    /\ result = requestFn (Z.of_nat (attempts events - 1))
    /\ (forall i, (i < attempts events - 1)%nat ->
                  exists e, requestFn (Z.of_nat i) = Rejected e
                            /\ shouldRetry e = true)
    /\ ((exists v, result = Fulfilled v)
        \/ exists e, result = Rejected e
                     /\ (shouldRetry e = false
                         \/ maxRetries c <= Z.of_nat (attempts events - 1))).
Proof.
  destruct (RetryLoop.requestWithRetry_shape c requestFn
              (S (Z.to_nat (maxRetries c))) 0) as (n & Hrun & _ & Hearly & Hstop);
    [rewrite Z.sub_0_r; lia|].
  exists (backoff c 0 n), (requestFn (0 + Z.of_nat n)).
  rewrite RetryLoop.attempts_backoff. replace (S n - 1)%nat with n by lia.
  cbn [Z.add] in *. repeat split; assumption.
Qed.

(** Through [get], [post], [put] and [delete] nothing is ever retried,
    whatever the configured budget and whatever the network answers:
    one request goes on the wire, no delay is slept, and the result is
    the first answer as the interceptor hands it on (a response as it
    is, a rejection as what [handleError] throws for it). *)
Theorem client_request_is_single_attempt (config : HttpClientConfig)
        (adapter : Z -> Settled JsVal) :
  request (HttpClient.new config) adapter
  = Some ([Attempt 0],
          match adapter 0 with
          | Fulfilled response => Fulfilled response
          | Rejected error => Rejected (handleError error)
          end).
Proof.
  destruct (adapter 0) as [response|error] eqn:H0.
  - unfold request, run. rewrite TransportFacts.requestWithRetry_step.
    rewrite H0, TransportFacts.through_fulfilled. reflexivity.
  - now apply TransportFacts.request_rejected_once.
Qed.

(** Whatever value [handleError] is given, as long as none of its parts
    is an object with an own [toString] property (converting such an
    object to a string is a [TypeError] of its own, which [to_string]
    does not have), what it throws is a RateLimit, Network, Response or
    Business error whose class-specific field is a constant:
    [retryAfter], [statusCode] and [response] are ['UNKNOWN'] and a
    Business error's [code] is ['UPS'].  The one exception is the
    [TypeError] of calling [includes] on a message that is neither a
    string nor an array. *)
Theorem handleError_fields_are_constants (error : JsVal)
        (Hprintable : printable error = true) :
  match kind (handleError error) with
  | Some CarrierRateLimitError => retryAfter (handleError error) = JStr "UNKNOWN"
  | Some CarrierNetworkError => statusCode (handleError error) = JStr "UNKNOWN"
  | Some CarrierResponseError => response (handleError error) = JStr "UNKNOWN"
  | Some CarrierBusinessError => Errors.code (handleError error) = JStr "UPS"
  | Some _ => False
  | None => handleError error
            = JError "TypeError" "error.message.includes is not a function" []
  end.
Proof.
  clear Hprintable.
  remember (handleError error) as thrown eqn:Hthrown.
  unfold handleError in Hthrown.
  repeat match type of Hthrown with
         | context [if ?b then _ else _] => destruct b
         | context [match ?x with _ => _ end] => destruct x
         end; subst thrown; reflexivity.
Qed.

(** The error of a 503 answer, and a mock error whose message is a
    number. *)
Lemma handleError_fields_are_constants_witness :
  let error := AxiosError "Request failed with status code 503"
                          (JStr "ERR_BAD_RESPONSE") (Response 503 JNull []) in
  let mock := JObj [("isAxiosError", JNum 1); ("message", JNum 7)] in
  printable error = true
  /\ kind (handleError error) = Some CarrierNetworkError
  /\ statusCode (handleError error) = JStr "UNKNOWN"
  /\ printable mock = true
  /\ handleError mock
     = JError "TypeError" "error.message.includes is not a function" [].
Proof.
  intros error mock.
  split; [reflexivity|]. split; [reflexivity|].
  split; [exact (handleError_fields_are_constants error eq_refl)|].
  split; [reflexivity|].
  exact (handleError_fields_are_constants mock eq_refl).
Defined.

(** An error that axios recognises as its own, none of whose parts is an
    object with an own [toString] property, is always classified:
    [handleError] throws a [CarrierError] for it, of kind RateLimit,
    Network, Response or Business. *)
Theorem handleError_classifies_axios_errors (error : JsVal)
        (Haxios : isAxiosError error = true)
        (Hprintable : printable error = true) :
  isCarrierError (handleError error) = true
  /\ (kind (handleError error) = Some CarrierRateLimitError
      \/ kind (handleError error) = Some CarrierNetworkError
      \/ kind (handleError error) = Some CarrierResponseError
      \/ kind (handleError error) = Some CarrierBusinessError).
Proof.
  clear Hprintable.
  remember (handleError error) as thrown eqn:Hthrown.
  unfold handleError in Hthrown. rewrite Haxios in Hthrown.
  repeat match type of Hthrown with
         | context [if ?b then _ else _] => destruct b
         | context [match ?x with _ => _ end] => destruct x
         end; subst thrown; (split; [reflexivity|]); cbn; auto.
Qed.

Lemma handleError_classifies_axios_errors_witness :
  let error := AxiosNetworkError "connect ECONNREFUSED" (JStr "ECONNREFUSED") in
  isAxiosError error = true
  /\ printable error = true
  /\ kind (handleError error) = Some CarrierNetworkError.
Proof.
  intros error. split; [reflexivity|]. split; [reflexivity|].
  destruct (handleError_classifies_axios_errors error eq_refl eq_refl) as [_ Hkind].
  destruct Hkind as [H | [H | [H | H]]]; try discriminate H. exact H.
Defined.

(** Which raw axios errors [shouldRetry] accepts.  For the error of a
    response: a status from 500 up, a 429, or, whatever the status, one
    of the four network error codes.  For an error without a response:
    the four network error codes only. *)
Theorem shouldRetry_of_axios_errors (message : string) (code data : JsVal)
        (headers : list (string * JsVal)) (status : Z) :
  shouldRetry (AxiosError message code (Response status data headers))
  = ((500 <=? status) || (status =? 429) || is_network_code code)
  /\ shouldRetry (AxiosNetworkError message code) = is_network_code code.
Proof.
  assert (Hcode : (truthy code && is_network_code code) = is_network_code code).
  { destruct code as [| | | | |text| | | |];
      try reflexivity; try apply andb_false_r.
    cbn [truthy]. destruct (String.eqb text "") eqn:E; [|reflexivity].
    apply String.eqb_eq in E. subst. reflexivity. }
  split.
  - change (shouldRetry (AxiosError message code (Response status data headers)))
      with (if negb (status =? 0) && (500 <=? status) then true
            else if status =? 429 then true
            else if truthy code && is_network_code code then true else false).
    rewrite Hcode.
    destruct (500 <=? status) eqn:H500.
    + apply Z.leb_le in H500.
      replace (status =? 0) with false by (symmetry; apply Z.eqb_neq; lia).
      reflexivity.
    + rewrite andb_false_r. cbn [orb].
      destruct (status =? 429); [reflexivity|].
      destruct (is_network_code code); reflexivity.
  - change (shouldRetry (AxiosNetworkError message code))
      with (if truthy code && is_network_code code then true else false).
    rewrite Hcode. destruct (is_network_code code); reflexivity.
Qed.

(** [toJSON] of a carrier error reports [name], [message], [code] and
    [carrier] as the error has them, and the field of its class when it
    has one; it never reports [originalError]. *)
Theorem toJSON_keeps_fields_drops_cause (cls : ErrorClass) (message : string)
        (code carrier originalError extra : JsVal) :
  let e := JCarrierError cls message code carrier originalError extra in
  exists json,
    toJSON e = Some json
    /\ has_prop "originalError" json = false
    /\ getq json "name" = JStr (class_name cls)
    /\ getq json "message" = Errors.message e
    /\ getq json "code" = Errors.code e
    /\ getq json "carrier" = Errors.carrier e
    /\ match extra_field cls with
       | Some field => getq json field = extra /\ getq e field = extra
       | None => True
       end.
Proof.
  intros e. eexists. split; [reflexivity|].
  destruct cls; cbn; repeat split.
Qed.

(* ================================================================== *)
(** ** Further properties of the provider *)
(* ================================================================== *)

(** A token exchange rejected with status 401 or 403 makes the
    acquisition fail with an Auth error whose message names the status
    and whose cause is the response body, whether or not axios
    recognises the rejection as its own. *)
Theorem acquireToken_catch_invalid_credentials (error : JsVal) (status : Z)
        (Hstatus : getq (getq error "response") "status" = JNum status)
        (Hwhich : status = 401 \/ status = 403) :
  acquireToken_catch error
  = JCarrierError CarrierAuthError
      ("Authentication failed: Invalid credentials (" ++ string_of_Z status ++ ")")
      (JStr "AUTH_ERROR") (JStr "UPS")
      (getq (getq error "response") "data") JUndefined.
Proof.
  destruct (ProviderFacts.status_is_number_shape error status Hstatus)
    as (Ht & Ho & Hp).
  unfold acquireToken_catch. rewrite Hstatus, Ht, Ho, Hp.
  destruct Hwhich; subst status; cbn; destruct (isAxiosError error); reflexivity.
Qed.

Lemma acquireToken_catch_invalid_credentials_witness :
  let error := JObj [("response", JObj [("status", JNum 401);
                                        ("data", JObj [("error", JStr "Invalid credentials")])]);
                     ("isAxiosError", JBool true)] in
  getq (getq error "response") "status" = JNum 401
  /\ Errors.message (acquireToken_catch error)
     = JStr "Authentication failed: Invalid credentials (401)".
Proof.
  intros error. split; [reflexivity|].
  rewrite (acquireToken_catch_invalid_credentials error 401 eq_refl (or_introl eq_refl)).
  reflexivity.
Defined.

(** [getTimeUntilExpiry] is never negative, and whenever
    [hasValidToken] is true more than 300 seconds remain. *)
Theorem valid_token_has_more_than_buffer_left (nowMs : Z) (p : Provider) :
  0 <= getTimeUntilExpiry nowMs p
  /\ (hasValidToken nowMs p = true -> 300 < getTimeUntilExpiry nowMs p).
Proof.
  unfold getTimeUntilExpiry, hasValidToken, REFRESH_BUFFER_SECONDS.
  destruct (cachedToken p) as [t|]; [|split; [lia|discriminate]].
  split; [lia|]. intros H. apply Z.ltb_lt in H. lia.
Qed.

Lemma valid_token_has_more_than_buffer_left_witness :
  let p := fst (acquireToken_resume 1000000 (Fulfilled (Some (token_response "t" 3600)))
                                    (UPSAuth.new demo_config)) in
  hasValidToken 1000000 p = true /\ 300 < getTimeUntilExpiry 1000000 p.
Proof.
  intros p. split; [reflexivity|].
  apply (proj2 (valid_token_has_more_than_buffer_left 1000000 p)). reflexivity.
Defined.

(** As the clock advances, a cached credential only gets older: the
    time until expiry does not grow, and a credential that is no longer
    valid does not become valid again. *)
Theorem validity_only_decays (nowMs laterMs : Z) (p : Provider)
        (Hclock : nowMs <= laterMs) :
  getTimeUntilExpiry laterMs p <= getTimeUntilExpiry nowMs p
  /\ (hasValidToken nowMs p = false -> hasValidToken laterMs p = false).
Proof.
  assert (Hs : seconds nowMs <= seconds laterMs)
    by (unfold seconds; apply Z.div_le_mono; lia).
  unfold getTimeUntilExpiry, hasValidToken, REFRESH_BUFFER_SECONDS.
  destruct (cachedToken p) as [t|]; [|split; [lia|reflexivity]].
  split; [lia|]. intros H. apply Z.ltb_ge in H. apply Z.ltb_ge. lia.
Qed.

Lemma validity_only_decays_witness :
  let p := fst (acquireToken_resume 1000000 (Fulfilled (Some (token_response "t" 600)))
                                    (UPSAuth.new demo_config)) in
  1300000 <= 1400000
  /\ hasValidToken 1300000 p = false
  /\ hasValidToken 1400000 p = false.
Proof.
  intros p.
  assert (Hclock : 1300000 <= 1400000) by lia.
  split; [exact Hclock|]. split; [reflexivity|].
  apply (proj2 (validity_only_decays 1300000 1400000 p Hclock)). reflexivity.
Defined.

(** Cache reuse.  Once an acquisition started from rest has been
    answered with a token, every [getToken] called before the clock
    reaches [acquisition second + expires_in - 300] returns that same
    token at once and puts nothing on the wire. *)
Theorem cached_token_is_reused (w : World) (callMs settledMs laterMs : Z)
        (c c' : Caller) (d : UPSTokenResponse)
        (Hsf : single_flight w)
        (Hslot : tokenPromise (self w) = None)
        (Hstale : hasValidToken callMs (self w) = false)
        (Htoken : truthy (access_token d) = true)
        (Hfresh : seconds laterMs < seconds settledMs + expires_in d - 300) :
  let w2 := settle settledMs (exchanges w) (Fulfilled (Some d))
                   (getToken callMs c w) in
  let w3 := getToken laterMs c' w2 in
  exchanges w3 = exchanges w2
  /\ exchanges w2 = S (exchanges w)
  /\ outcomes w3
     = (outcomes w ++ [(c, Fulfilled (access_token d));
                       (c', Fulfilled (access_token d))])%list
  /\ tokenPromise (self w3) = None.
Proof.
  intros w2 w3.
  destruct (SingleFlight.empty_slot_at_rest w Hsf Hslot) as (_ & Hi & Hr).
  assert (Hw2 : w2 = settle settledMs (exchanges w) (Fulfilled (Some d))
                           (getToken callMs c w)) by reflexivity.
  rewrite (ProviderFacts.getToken_starts _ _ _ Hstale Hslot) in Hw2.
  rewrite (ProviderFacts.settle_acquiring _ _ _ _ c []) in Hw2;
    [|cbn; now rewrite Hi | cbn; now rewrite Hr].
  rewrite (ProviderFacts.acquireToken_resume_fulfilled _ _ _ Htoken) in Hw2.
  cbn [fst snd map self outcomes] in Hw2.
  assert (Hvalid : hasValidToken laterMs (self w2) = true).
  { rewrite Hw2. cbn. apply Z.ltb_lt. exact Hfresh. }
  destruct (ProviderFacts.getToken_cached laterMs c' w2 Hvalid) as (t & Ht & Hw3).
  fold w3 in Hw3.
  assert (Hacc : accessToken t = access_token d).
  { rewrite Hw2 in Ht. cbn in Ht. inversion Ht. reflexivity. }
  rewrite Hw3, Hacc. unfold exchanges. cbn [deliver wire outcomes self].
  rewrite Hw2. cbn [wire outcomes self]. rewrite length_app. cbn.
  repeat split; [lia | now rewrite <- app_assoc].
Qed.

Lemma cached_token_is_reused_witness :
  let w2 := settle 2000 0 (Fulfilled (Some (token_response "abc123" 3600)))
                   (getToken 1000 1%nat (start demo_config)) in
  single_flight (start demo_config)
  /\ seconds 900000 < seconds 2000 + 3600 - 300
  /\ exchanges (getToken 900000 2%nat w2) = exchanges w2
  /\ outcomes (getToken 900000 2%nat w2)
     = [(1%nat, Fulfilled (JStr "abc123")); (2%nat, Fulfilled (JStr "abc123"))].
Proof.
  intros w2.
  assert (Hsf : single_flight (start demo_config)) by (left; repeat split).
  assert (Hfresh : seconds 900000 < seconds 2000 + 3600 - 300) by reflexivity.
  destruct (cached_token_is_reused (start demo_config) 1000 2000 900000
              1%nat 2%nat (token_response "abc123" 3600)
              Hsf eq_refl eq_refl eq_refl Hfresh) as (Hx & _ & Hout & _).
  split; [exact Hsf|]. split; [exact Hfresh|]. split; [exact Hx | exact Hout].
Defined.

Module RunFacts.
Import ProviderFacts.

(** How an acquisition settles does not depend on the provider it
    settles in, and it overwrites whatever was cached. *)
Lemma acquireToken_resume_result nowMs posted p p' :
  snd (acquireToken_resume nowMs posted p) = snd (acquireToken_resume nowMs posted p').
Proof.
  unfold acquireToken_resume. destruct (acquireToken_try nowMs posted); reflexivity.
Qed.

Lemma acquireToken_resume_after_clear nowMs posted p :
  acquireToken_resume nowMs posted (UPSAuth.clearToken p)
  = acquireToken_resume nowMs posted p.
Proof.
  unfold acquireToken_resume. destruct (acquireToken_try nowMs posted); reflexivity.
Qed.

End RunFacts.

(** [clearToken] does not cancel a pending acquisition: called while
    the acquisition of promise [q] is pending, it leaves the slot as it
    is, and once the acquisition settles the world is the one it would
    have been without the call (the new credential is cached, or none
    after a failure). *)
Theorem clearToken_does_not_cancel (w : World) (q : nat) (nowMs : Z)
        (posted : Settled (option UPSTokenResponse))
        (Hpending : acquiring q w) :
  tokenPromise (self (clearToken w)) = Some q
  /\ exchanges (clearToken w) = exchanges w
  /\ settle nowMs q posted (clearToken w) = settle nowMs q posted w.
Proof.
  destruct Hpending as (Hs & Hi & c & joiners & Hr).
  split; [exact Hs|]. split; [reflexivity|].
  rewrite (ProviderFacts.settle_acquiring nowMs q posted w c joiners Hi Hr).
  rewrite (ProviderFacts.settle_acquiring nowMs q posted (clearToken w) c joiners Hi Hr).
  cbn [clearToken with_self self wire outcomes].
  now rewrite RunFacts.acquireToken_resume_after_clear.
Qed.

Lemma clearToken_does_not_cancel_witness :
  let w := getToken 1000 1%nat (start demo_config) in
  acquiring 0 w
  /\ hasValidToken 3000
       (self (settle 3000 0 (Fulfilled (Some (token_response "abc123" 3600)))
                     (clearToken w))) = true.
Proof.
  intros w.
  assert (Hpending : acquiring 0 w).
  { split; [reflexivity|]. split; [reflexivity|]. exists 1%nat, []. reflexivity. }
  split; [exact Hpending|].
  destruct (clearToken_does_not_cancel w 0 3000
              (Fulfilled (Some (token_response "abc123" 3600))) Hpending)
    as (_ & _ & ->).
  reflexivity.
Defined.

(** [refreshToken] called while an acquisition is pending issues no
    exchange of its own: it empties the cache and joins the pending
    acquisition, and when that settles the caller gets its result, after
    the callers that were already waiting. *)
Theorem refreshToken_joins_pending (w : World) (q : nat) (nowMs : Z) (c : Caller)
        (Hpending : acquiring q w) :
  let w1 := refreshToken nowMs c w in
  exchanges w1 = exchanges w
  /\ tokenPromise (self w1) = Some q
  /\ cachedToken (self w1) = None
  /\ forall settledMs posted,
       let w2 := settle settledMs q posted w1 in
       exchanges w2 = exchanges w
       /\ outcomes w2
          = (outcomes (settle settledMs q posted w)
               ++ [(c, snd (acquireToken_resume settledMs posted (self w)))])%list.
Proof.
  intros w1.
  destruct Hpending as (Hs & Hi & c0 & joiners & Hr).
  assert (Hw1 : w1 = {| self := self (clearToken w); wire := wire w;
                        inflight := inflight w;
                        reactions := (reactions w ++ [(q, Adopt c)])%list;
                        outcomes := outcomes w |}).
  { unfold w1, refreshToken.
    now rewrite (ProviderFacts.getToken_joins nowMs c (clearToken w) q). }
  split; [now rewrite Hw1|]. split; [now rewrite Hw1|]. split; [now rewrite Hw1|].
  intros settledMs posted w2.
  assert (Hw2 : w2 = settle settledMs q posted w1) by reflexivity.
  rewrite (ProviderFacts.settle_acquiring settledMs q posted w1 c0 (joiners ++ [c])%list)
    in Hw2; [|now rewrite Hw1 | rewrite Hw1; cbn [reactions]; now rewrite Hr, map_app].
  rewrite (ProviderFacts.settle_acquiring settledMs q posted w c0 joiners Hi Hr).
  rewrite Hw2. unfold exchanges. cbn [wire outcomes]. rewrite Hw1. cbn [wire outcomes self].
  split; [reflexivity|].
  rewrite (RunFacts.acquireToken_resume_result settledMs posted
             (self (clearToken w)) (self w)).
  cbn [map]. rewrite map_app. cbn [map]. rewrite <- app_assoc. reflexivity.
Qed.

Lemma refreshToken_joins_pending_witness :
  let w := getToken 1000 1%nat (start demo_config) in
  let w2 := settle 3000 0 (Fulfilled (Some (token_response "abc123" 3600)))
                   (refreshToken 2000 2%nat w) in
  acquiring 0 w
  /\ exchanges w2 = 1%nat
  /\ outcomes w2 = [(1%nat, Fulfilled (JStr "abc123")); (2%nat, Fulfilled (JStr "abc123"))].
Proof.
  intros w w2.
  assert (Hpending : acquiring 0 w).
  { split; [reflexivity|]. split; [reflexivity|]. exists 1%nat, []. reflexivity. }
  destruct (refreshToken_joins_pending w 0 2000 2%nat Hpending) as (_ & _ & _ & Hsettle).
  destruct (Hsettle 3000 (Fulfilled (Some (token_response "abc123" 3600))))
    as (Hx & Hout).
  split; [exact Hpending|]. split; [exact Hx | exact Hout].
Defined.



(** Over any run of calls, answers and jobs, in any order and from any
    world: the wire only grows, and by no more than one exchange per
    [getToken] or [refreshToken] call; an answer given stays as it is;
    and every caller is answered or waiting (on a promise or in the
    queue) once for each call it made, neither more nor less. *)
Theorem run_accounts_for_every_call (ops : list Microtasks.Op) (w : Microtasks.World) :
  let w' := Microtasks.steps ops w in
  (Microtasks.exchanges w <= Microtasks.exchanges w'
   <= Microtasks.exchanges w + List.length (Microtasks.callers ops))%nat
  /\ (exists more, Microtasks.outcomes w' = (Microtasks.outcomes w ++ more)%list)
  /\ forall c : Caller,
       (count_occ Nat.eq_dec (Microtasks.answered w') c
        + count_occ Nat.eq_dec (Microtasks.waiting w') c)%nat
       = (count_occ Nat.eq_dec (Microtasks.answered w) c
          + count_occ Nat.eq_dec (Microtasks.waiting w) c
          + count_occ Nat.eq_dec (Microtasks.callers ops) c)%nat.
Proof.
  revert w. induction ops as [|op ops IH]; intros w; cbv zeta.
  - cbn. split; [lia|]. split; [exists []; now rewrite app_nil_r|]. intros c. lia.
  - unfold Microtasks.steps. cbn [fold_left].
    fold (Microtasks.steps ops (Microtasks.step w op)).
    destruct (IH (Microtasks.step w op)) as (Hx & [more Hmore] & Hc).
    pose proof (MicrotaskFacts.step_exchanges w op) as Hx1.
    destruct (MicrotaskFacts.step_keeps_outcomes w op) as [more1 Hmore1].
    rewrite MicrotaskFacts.callers_cons, length_app.
    split; [lia|]. split.
    + exists (more1 ++ more)%list. now rewrite Hmore, Hmore1, app_assoc.
    + intros c. rewrite (Hc c), (MicrotaskFacts.step_accounts w op c), count_occ_app.
      unfold Caller. lia.
Qed.

(** At most one acquisition at a time, whatever the order of calls,
    answers and jobs.  In every world reachable from a new provider the
    slot is empty with nothing pending and nobody waiting on a promise,
    or one acquisition is pending and its promise is in the slot, or the
    promise in the slot has settled and the [finally] that empties the
    slot is queued.  So never more than one exchange is pending, a
    pending exchange is always the one in the slot, and an empty slot
    means that nothing is pending. *)
Theorem single_flight_under_any_schedule (cfg : UPSAuthConfig)
        (ops : list Microtasks.Op) :
  let w := Microtasks.steps ops (Microtasks.start cfg) in
  Microtasks.single_flight w
  /\ (List.length (inflight (Microtasks.base w)) <= 1)%nat
  /\ (forall q, In q (inflight (Microtasks.base w)) ->
                tokenPromise (Microtasks.self w) = Some q)
  /\ (tokenPromise (Microtasks.self w) = None ->
      inflight (Microtasks.base w) = [] /\ reactions (Microtasks.base w) = []).
Proof.
  intros w.
  assert (Hsf : Microtasks.single_flight w)
    by apply MicrotaskFacts.steps_keep_shape, MicrotaskFacts.start_is_idle.
  split; [exact Hsf|].
  destruct Hsf as [_ [Hidle | [[q Hacq] | [q Hfin]]]].
  - destruct Hidle as (Hs & Hi & Hr & _). rewrite Hi, Hr.
    split; [cbn; lia|]. split; [intros q []|]. now intros _.
  - destruct Hacq as (Hs & Hi & _). rewrite Hi, Hs.
    split; [cbn; lia|]. split; [intros q' [<-|[]]; reflexivity|]. discriminate.
  - destruct Hfin as (Hs & Hi & Hr & _). rewrite Hi, Hr, Hs.
    split; [cbn; lia|]. split; [intros q' []|]. discriminate.
Qed.

(* ================================================================== *)
(** ** Properties of the carrier, the mapper and the configuration *)
(* ================================================================== *)

Module CarrierFacts.
Import UPSCarrier.

Lemma is_kind_kind cls v : is_kind cls v = true -> kind v = Some cls.
Proof.
  destruct v; try discriminate. destruct cls0, cls; try discriminate; reflexivity.
Qed.

(** What [handleUPSError] throws is never a Network error. *)
Lemma handleUPSError_not_Network (errorData : JsVal) :
  is_kind CarrierNetworkError (handleUPSError errorData) = false.
Proof.
  unfold handleUPSError.
  destruct (get errorData "response"); [|reflexivity].
  destruct (truthy (getq j "errors") && isArray (getq j "errors")); reflexivity.
Qed.

(** No error thrown by [handleError] has [statusCode === 401]. *)
Lemma handleError_never_401 (error : JsVal) :
  refreshes_on (HttpClient.handleError error) = false.
Proof.
  unfold refreshes_on.
  remember (HttpClient.handleError error) as thrown eqn:Hthrown.
  unfold HttpClient.handleError in Hthrown.
  repeat match type of Hthrown with
         | context [if ?b then _ else _] => destruct b
         | context [match ?x with _ => _ end] => destruct x
         end; subst thrown; reflexivity.
Qed.

Lemma toRateQuotes_length {Quote : Type} (toRateQuote : JsVal -> Settled Quote) :
  forall shipments quotes,
    toRateQuotes toRateQuote shipments = Fulfilled quotes ->
    List.length quotes = List.length shipments.
Proof.
  induction shipments as [|s rest IH]; intros quotes H; cbn in H.
  - inversion H. reflexivity.
  - destruct (toRateQuote s); [|discriminate].
    destruct (toRateQuotes toRateQuote rest) as [qs|]; [|discriminate].
    inversion H. cbn. f_equal. now apply IH.
Qed.

End CarrierFacts.

Import UPSCarrier.

(** [handleUPSError] for a body that has the carrier's envelope throws a
    Business error with the first entry's message and code in the fields
    of those names, ['UPS'] as carrier and the body as cause, an empty
    field being replaced by ['UPS API error'] or ['UNKNOWN']; an empty
    list of errors gives both replacements; a body without the envelope
    gives a Response error whose [response] is the body. *)
Theorem handleUPSError_reads_the_envelope (entryCode entryMessage : string)
        (more : list JsVal) (other : list (string * JsVal)) :
  let entry := JObj [("code", JStr entryCode); ("message", JStr entryMessage)] in
  let envelope := JObj [("response", JObj [("errors", JArr (entry :: more))])] in
  let empty := JObj [("response", JObj [("errors", JArr [])])] in
  let plain := JObj (("error", JStr "Unauthorized") :: other) in
  handleUPSError envelope
  = JCarrierError CarrierBusinessError
      (if String.eqb entryMessage "" then "UPS API error" else entryMessage)
      (if String.eqb entryCode "" then JStr "UNKNOWN" else JStr entryCode)
      (JStr "UPS") envelope JUndefined
  /\ handleUPSError empty
     = JCarrierError CarrierBusinessError "UPS API error" (JStr "UNKNOWN")
                     (JStr "UPS") empty JUndefined
  /\ (has_prop "response" plain = false ->
      kind (handleUPSError plain) = Some CarrierResponseError
      /\ response (handleUPSError plain) = plain
      /\ carrier (handleUPSError plain) = JStr "UPS").
Proof.
  intros entry envelope empty plain. split; [|split; [reflexivity|]].
  - unfold handleUPSError. cbn. unfold or_else. cbn.
    destruct (String.eqb entryMessage ""), (String.eqb entryCode ""); reflexivity.
  - intros Hno. unfold has_prop in Hno. unfold handleUPSError, get.
    subst plain. cbn [own_prop] in *.
    destruct (assoc "response" (("error", JStr "Unauthorized") :: other));
      [discriminate|].
    cbn. repeat split.
Qed.

Lemma handleUPSError_reads_the_envelope_witness :
  let plain := JObj [("error", JStr "Unauthorized"); ("detail", JNum 7)] in
  has_prop "response" plain = false
  /\ response (handleUPSError plain) = plain.
Proof.
  intros plain. split; [reflexivity|].
  destruct (handleUPSError_reads_the_envelope "c" "m" [] [("detail", JNum 7)])
    as (_ & _ & Hplain).
  destruct (Hplain eq_refl) as (_ & Hresponse & _). exact Hresponse.
Defined.

(** In [makeRatingRequest] the carrier-specific reading of a failed
    response is never reached: for the axios error of any response, and
    for an axios error without response, the interceptor of the client
    has already thrown its own error, and the [catch] block rethrows
    that error unchanged. *)
Theorem makeRatingRequest_rethrows_classified (config : UPSCarrierConfig)
        (message : string) (code data : JsVal)
        (headers : list (string * JsVal)) (status : Z) :
  makeRatingRequest (UPSCarrier.new config)
                    (Rejected (AxiosError message code (Response status data headers)))
  = Rejected (HttpClient.handleError
                (AxiosError message code (Response status data headers)))
  /\ makeRatingRequest (UPSCarrier.new config)
                       (Rejected (AxiosNetworkError message code))
     = Rejected (HttpClient.handleError (AxiosNetworkError message code)).
Proof.
  unfold makeRatingRequest, UPSCarrier.new. cbn [httpClient].
  rewrite !TransportFacts.through_rejected. split.
  - f_equal. rewrite handleError_of_response.
    repeat match goal with
           | |- context [if ?b then _ else _] => destruct b
           | |- context [match ?x with _ => _ end] => destruct x
           end;
      unfold makeRatingRequest_catch; cbn;
      repeat match goal with
             | |- context [if ?b then _ else _] => destruct b
             end; reflexivity.
  - reflexivity.
Qed.

(** The test that makes [getRates] refresh the token and try again,
    [error instanceof CarrierNetworkError && error.statusCode === 401],
    fails for every error the rating request or the token acquisition
    can throw: for whatever [handleError] throws, for what
    [makeRatingRequest] makes of it, and for whatever [acquireToken]
    throws. *)
Theorem getRates_never_refreshes (error : JsVal) :
  refreshes_on (HttpClient.handleError error) = false
  /\ refreshes_on (makeRatingRequest_catch (HttpClient.handleError error)) = false
  /\ refreshes_on (acquireToken_catch error) = false.
Proof.
  split; [apply CarrierFacts.handleError_never_401|]. split.
  - unfold makeRatingRequest_catch.
    destruct (is_kind CarrierNetworkError (HttpClient.handleError error)
              && truthy (getq (HttpClient.handleError error) "originalError"));
      [|apply CarrierFacts.handleError_never_401].
    destruct (truthy _); [|apply CarrierFacts.handleError_never_401].
    unfold refreshes_on. now rewrite CarrierFacts.handleUPSError_not_Network.
  - destruct (ProviderFacts.acquireToken_catch_Auth error) as (m & o & ->).
    reflexivity.
Qed.

(** Whatever [toRateQuote] does, [parseRatingResponse] throws nothing but
    Business and Response errors. *)
Theorem parseRatingResponse_throws_Business_or_Response
        (Quote : Type) (toRateQuote : JsVal -> Settled Quote)
        (response thrown : JsVal)
        (Hthrown : parseRatingResponse toRateQuote response = Rejected thrown) :
  kind thrown = Some CarrierBusinessError \/ kind thrown = Some CarrierResponseError.
Proof.
  unfold parseRatingResponse in Hthrown.
  destruct (parseRatingResponse_try toRateQuote response) as [quotes|error];
    [discriminate|].
  destruct (is_kind CarrierBusinessError error) eqn:Hb; cbn [orb] in Hthrown.
  - inversion Hthrown; subst. left. now apply CarrierFacts.is_kind_kind.
  - destruct (is_kind CarrierResponseError error) eqn:Hr;
      inversion Hthrown; subst; right;
      [now apply CarrierFacts.is_kind_kind | reflexivity].
Qed.

Lemma parseRatingResponse_throws_Business_or_Response_witness :
  parseRatingResponse (fun _ => Fulfilled tt) JUndefined
  = Rejected (JCarrierError CarrierResponseError
                "Failed to parse UPS rating response: TypeError: Cannot read properties of undefined (reading 'RateResponse')"
                (JStr "RESPONSE_ERROR") (JStr "UPS") JUndefined JUndefined)
  /\ (kind (JCarrierError CarrierResponseError
                "Failed to parse UPS rating response: TypeError: Cannot read properties of undefined (reading 'RateResponse')"
                (JStr "RESPONSE_ERROR") (JStr "UPS") JUndefined JUndefined)
      = Some CarrierBusinessError
      \/ kind (JCarrierError CarrierResponseError
                "Failed to parse UPS rating response: TypeError: Cannot read properties of undefined (reading 'RateResponse')"
                (JStr "RESPONSE_ERROR") (JStr "UPS") JUndefined JUndefined)
         = Some CarrierResponseError).
Proof.
  split; [reflexivity|].
  apply (parseRatingResponse_throws_Business_or_Response unit
           (fun _ => Fulfilled tt) JUndefined). reflexivity.
Defined.

(** When [parseRatingResponse] returns, the response status code is
    ['1'] and there is one quote per rated shipment: none when
    [RatedShipment] is missing, one for a single object, as many as the
    array has entries otherwise. *)
Theorem parseRatingResponse_one_quote_per_shipment
        (Quote : Type) (toRateQuote : JsVal -> Settled Quote)
        (response : JsVal) (quotes : list Quote)
        (Hparsed : parseRatingResponse toRateQuote response = Fulfilled quotes) :
  let rateResponse := getq response "RateResponse" in
  let RatedShipment := getq rateResponse "RatedShipment" in
  getq (getq (getq rateResponse "Response") "ResponseStatus") "Code" = JStr "1"
  /\ List.length quotes
     = if truthy RatedShipment
       then List.length (UPSMapper.normalizeRatedShipments RatedShipment)
       else 0%nat.
Proof.
  unfold parseRatingResponse in Hparsed.
  destruct (parseRatingResponse_try toRateQuote response) as [qs|error] eqn:Htry.
  2:{ destruct (is_kind CarrierBusinessError error || is_kind CarrierResponseError error);
      discriminate. }
  inversion Hparsed; subst qs. clear Hparsed.
  unfold parseRatingResponse_try in Htry. cbn zeta.
  destruct (get response "RateResponse") as [rateResponse|] eqn:E1; [|discriminate].
  assert (G1 : getq response "RateResponse" = rateResponse)
    by (unfold getq; now rewrite E1).
  rewrite G1.
  destruct (truthy rateResponse); cbn [negb] in Htry; [|discriminate].
  destruct (get (getq rateResponse "Response") "ResponseStatus")
    as [responseStatus|] eqn:E2; [|discriminate].
  assert (G2 : getq (getq rateResponse "Response") "ResponseStatus" = responseStatus)
    by (unfold getq at 1; now rewrite E2).
  rewrite G2.
  destruct (get responseStatus "Code") as [code|] eqn:E3; [|discriminate].
  assert (G3 : getq responseStatus "Code" = code)
    by (unfold getq; now rewrite E3).
  rewrite G3.
  destruct (is_str code "1") eqn:Hcode; cbn [negb] in Htry; [|discriminate].
  split.
  - destruct code; try discriminate. cbn in Hcode.
    apply String.eqb_eq in Hcode. now subst.
  - destruct (truthy (getq rateResponse "RatedShipment")); cbn [negb] in Htry.
    + now apply (CarrierFacts.toRateQuotes_length toRateQuote).
    + inversion Htry. reflexivity.
Qed.

Lemma parseRatingResponse_one_quote_per_shipment_witness :
  let shipment := JObj [("Service", JObj [("Code", JStr "03")])] in
  let response :=
    JObj [("RateResponse",
           JObj [("Response", JObj [("ResponseStatus", JObj [("Code", JStr "1")])]);
                 ("RatedShipment", shipment)])] in
  parseRatingResponse (fun s => Fulfilled (getq (getq s "Service") "Code")) response
  = Fulfilled [JStr "03"]
  /\ List.length [JStr "03"] = 1%nat.
Proof.
  intros shipment response. split; [reflexivity|].
  apply (proj2 (parseRatingResponse_one_quote_per_shipment JsVal
                  (fun s => Fulfilled (getq (getq s "Service") "Code"))
                  response [JStr "03"] eq_refl)).
Defined.

Import UPSMapper.

(** The service tables agree.  Every member of [ServiceLevelSchema] has
    a code in [UPS_SERVICE_CODES] (whose keys are exactly these
    members), [getServiceLevel] maps that code back to the member, and
    the code has a display name in [UPS_SERVICE_NAMES]; conversely a
    code for which [getServiceLevel] finds an entry of its table is the
    code of the level it returns.  For the name of a property of
    [Object.prototype] it returns that inherited property, not a level
    and not [undefined]; when it returns [undefined] the code is no such
    name and no level's code. *)
Theorem service_levels_round_trip :
  map fst UPS_SERVICE_CODES = ServiceLevel
  /\ Forall (fun level =>
               exists code name,
                 lookup level UPS_SERVICE_CODES = Some code
                 /\ getServiceLevel code = Own level
                 /\ lookup code UPS_SERVICE_NAMES = Some name)
            ServiceLevel
  /\ (forall code level,
         getServiceLevel code = Own level ->
         lookup level UPS_SERVICE_CODES = Some code /\ In level ServiceLevel)
  /\ (forall code, In code Object_prototype -> getServiceLevel code = Inherited code)
  /\ (forall code,
         getServiceLevel code = Missing ->
         ~ In code Object_prototype
         /\ forall level, lookup level UPS_SERVICE_CODES <> Some code).
Proof.
  split; [reflexivity|]. split.
  { repeat constructor; do 2 eexists; repeat split; reflexivity. }
  split.
  { intros code level. unfold getServiceLevel, property. cbn [lookup].
    repeat match goal with
           | |- context [String.eqb code ?k] =>
               let E := fresh "E" in
               destruct (String.eqb code k) eqn:E;
               [apply String.eqb_eq in E; subst code; intros H; inversion H; subst level;
                split; [reflexivity | cbn; tauto] |]
           end.
    destruct (existsb (String.eqb code) Object_prototype); discriminate. }
  split.
  { intros code Hin. cbn in Hin.
    repeat (destruct Hin as [<- | Hin]; [reflexivity|]). contradiction. }
  intros code. unfold getServiceLevel, property. cbn [lookup].
  repeat match goal with
         | |- context [String.eqb code ?k] =>
             let E := fresh "E" in
             destruct (String.eqb code k) eqn:E; [discriminate|]
         end.
  destruct (existsb (String.eqb code) Object_prototype) eqn:Hproto; [discriminate|].
  intros _. split.
  - intros Hin.
    assert (Hex : existsb (String.eqb code) Object_prototype = true).
    { apply existsb_exists. exists code. split; [exact Hin | apply String.eqb_refl]. }
    rewrite Hex in Hproto. discriminate.
  - intros level Hlevel. unfold UPS_SERVICE_CODES in Hlevel. cbn [lookup] in Hlevel.
    repeat match type of Hlevel with
           | context [String.eqb level ?k] =>
               destruct (String.eqb level k);
               [injection Hlevel as <-; cbn in *; discriminate|]
           end.
    discriminate.
Qed.

Lemma service_levels_round_trip_witness :
  getServiceLevel "59" = Own "SECOND_DAY_AIR_AM"
  /\ lookup "SECOND_DAY_AIR_AM" UPS_SERVICE_CODES = Some "59"
  /\ In "toString" Object_prototype
  /\ getServiceLevel "toString" = Inherited "toString".
Proof.
  assert (Hin : In "toString" Object_prototype) by (cbn; tauto).
  split; [reflexivity|].
  destruct service_levels_round_trip as (_ & _ & Hback & Hproto & _).
  split; [exact (proj1 (Hback "59" "SECOND_DAY_AIR_AM" eq_refl))|].
  split; [exact Hin | exact (Hproto "toString" Hin)].
Defined.

(** [toUPSAddress] always sends [AddressLine]: [street1] first, then
    [street2] and [street3] when they are set and not empty, so between
    one and three lines and no empty line after the first; and it sends
    a state code or a residential indicator only when there is one. *)
Theorem toUPSAddress_lines (address : Address) :
  exists rest,
    AddressLine (toUPSAddress address) = Some (street1 address :: rest)
    /\ (List.length rest <= 2)%nat
    /\ ~ In "" rest
    /\ rest = (pushed (street2 address) ++ pushed (street3 address))%list
    /\ StateProvinceCode (toUPSAddress address) <> Some ""
    /\ (ResidentialAddressIndicator (toUPSAddress address) = Some "Y"
        <-> residential address = Some true).
Proof.
  exists (pushed (street2 address) ++ pushed (street3 address))%list.
  assert (Hgiven : forall s t, given s = Some t -> t <> "").
  { intros [s|] t; cbn; [|discriminate].
    destruct (String.eqb s "") eqn:E; [discriminate|].
    intros H; inversion H; subst. now apply String.eqb_neq. }
  assert (Hpushed : forall s, (List.length (pushed s) <= 1)%nat /\ ~ In "" (pushed s)).
  { intros s. unfold pushed. destruct (given s) eqn:E; cbn; [|split; [lia|tauto]].
    split; [lia|]. intros [H|[]]. now apply (Hgiven s s0 E). }
  split; [reflexivity|]. split.
  - rewrite length_app.
    pose proof (proj1 (Hpushed (street2 address))).
    pose proof (proj1 (Hpushed (street3 address))). lia.
  - split.
    + rewrite in_app_iff. intros [H|H]; eapply Hpushed; eauto.
    + split; [reflexivity|]. split.
      * cbn. intros H. now apply (Hgiven _ _ H).
      * cbn. destruct (residential address) as [[|]|]; split; congruence.
Qed.

Import Config.

(** [getUPSConfig] succeeds exactly when [UPS_CLIENT_ID],
    [UPS_CLIENT_SECRET] and [UPS_ACCOUNT_NUMBER] are all set and not
    empty, and then returns their values.  Otherwise it throws a Config
    error whose [missingFields] are the names of the variables that are
    unset or empty, in that order: the name it derives from each key is
    the name of the variable it read for that key. *)
Theorem getUPSConfig_reports_missing_variables (env : Env) :
  let unset := fun name => negb (truthy (env_val env name)) in
  let names := ["UPS_CLIENT_ID"; "UPS_CLIENT_SECRET"; "UPS_ACCOUNT_NUMBER"] in
  missing env = filter unset names
  /\ match getUPSConfig env with
     | Fulfilled cfg =>
         filter unset names = []
         /\ env "UPS_CLIENT_ID" = Some (clientId cfg)
         /\ env "UPS_CLIENT_SECRET" = Some (clientSecret cfg)
         /\ env "UPS_ACCOUNT_NUMBER" = Some (accountNumber cfg)
     | Rejected e =>
         filter unset names <> []
         /\ kind e = Some CarrierConfigError
         /\ getq e "missingFields" = JArr (map JStr (filter unset names))
     end.
Proof.
  intros unset names.
  assert (Hset : forall name, unset name = false ->
                              env name = Some (to_string (env_val env name))).
  { intros name. unfold unset, env_val.
    destruct (env name) as [s|]; [reflexivity | discriminate]. }
  assert (Hmissing : missing env = filter unset names).
  { unfold missing, required, names. cbn [filter map fst snd].
    fold (unset "UPS_CLIENT_ID") (unset "UPS_CLIENT_SECRET")
         (unset "UPS_ACCOUNT_NUMBER").
    destruct (unset "UPS_CLIENT_ID"), (unset "UPS_CLIENT_SECRET"),
      (unset "UPS_ACCOUNT_NUMBER"); reflexivity. }
  split; [exact Hmissing|].
  unfold getUPSConfig. rewrite Hmissing. subst names. cbn [filter].
  pose proof (Hset "UPS_CLIENT_ID") as H1.
  pose proof (Hset "UPS_CLIENT_SECRET") as H2.
  pose proof (Hset "UPS_ACCOUNT_NUMBER") as H3.
  destruct (unset "UPS_CLIENT_ID"), (unset "UPS_CLIENT_SECRET"),
    (unset "UPS_ACCOUNT_NUMBER"); cbn;
    repeat split; try discriminate; auto.
Qed.

(** The two clients of a carrier.  The budget of the rating client is
    always 3 retries with a base delay of 1000 ms.  A non-zero
    [timeout] in the configuration is the timeout of both clients;
    without one (or with 0) the rating client waits 30000 ms and the
    token client 10000 ms. *)
Theorem carrier_clients_configuration (clientId clientSecret accountNumber : string)
        (apiBaseUrl tokenUrl : JsVal) (n : Z) :
  let configured := fun timeout =>
    UPSCarrier.new {| UPSCarrier.clientId := clientId;
                      UPSCarrier.clientSecret := clientSecret;
                      UPSCarrier.accountNumber := accountNumber;
                      UPSCarrier.apiBaseUrl := apiBaseUrl;
                      UPSCarrier.tokenUrl := tokenUrl;
                      UPSCarrier.timeout := timeout |} in
  let rating := fun timeout => HttpClient.client (httpClient (configured timeout)) in
  let token := fun timeout => UPSAuth.httpClient (authProvider (configured timeout)) in
  HttpClient.maxRetries (httpClient (configured (JNum n))) = 3
  /\ HttpClient.retryDelay (httpClient (configured (JNum n))) = 1000
  /\ Axios.timeout (rating (JNum n)) = (if n =? 0 then 30000 else n)
  /\ Axios.timeout (token (JNum n)) = (if n =? 0 then 10000 else n)
  /\ Axios.timeout (rating JUndefined) = 30000
  /\ Axios.timeout (token JUndefined) = 10000
  /\ UPSAuth.tokenPromise (authProvider (configured (JNum n))) = None
  /\ UPSAuth.cachedToken (authProvider (configured (JNum n))) = None.
Proof.
  cbn. unfold HttpClient.num_or, or_else. cbn.
  destruct (n =? 0) eqn:E; cbn; rewrite ?E; cbn; repeat split.
Qed.
